(** * pg2kinesis replication relay: a shallow embedding of
      [replication-service/app.py] and the properties of its batch handler
      and of its module-level session code.

    The program is glue around three libraries (json, boto3, psycopg2).
    Their calls are kept as an explicit interface, [Externals]; what the
    program itself does -- which calls it makes, in which order, with which
    arguments, and how it routes the exceptions they raise through its
    [try]/[except] clauses -- is embedded from the source. *)

From Stdlib Require Import List String Ascii ZArith Bool Lia Sorted.
Import ListNotations.
Local Open Scope string_scope.
Local Open Scope list_scope.

Set Implicit Arguments.

(** ** Python exceptions *)

(** A class that can be raised is [BaseException] or a (named) class
    derived from another such class; Python 3 refuses to raise anything
    else.  All the classes the program meets have one base class. *)
Inductive pyclass : Type :=
| BaseException
| Sub (name : string) (parent : pyclass).

Fixpoint pyclass_eqb (c d : pyclass) : bool :=
  match c, d with
  | BaseException, BaseException => true
  | Sub n p, Sub m q => String.eqb n m && pyclass_eqb p q
  | _, _ => false
  end.

(** [issubclass c d]: [c] is [d] or derives from it. *)
Fixpoint issubclass (c d : pyclass) : bool :=
  pyclass_eqb c d ||
  match c with
  | BaseException => false
  | Sub _ p => issubclass p d
  end.

Definition Exception : pyclass := Sub "Exception" BaseException.
Definition KeyboardInterrupt : pyclass := Sub "KeyboardInterrupt" BaseException.
Definition ValueError : pyclass := Sub "ValueError" Exception.
Definition JSONDecodeError : pyclass := Sub "JSONDecodeError" ValueError.
Definition LookupError : pyclass := Sub "LookupError" Exception.
Definition KeyError : pyclass := Sub "KeyError" LookupError.
Definition TypeError : pyclass := Sub "TypeError" Exception.
Definition NameError : pyclass := Sub "NameError" Exception.
Definition UnboundLocalError : pyclass := Sub "UnboundLocalError" NameError.
(** botocore.exceptions *)
Definition ClientError : pyclass := Sub "ClientError" Exception.
Definition BotoCoreError : pyclass := Sub "BotoCoreError" Exception.
Definition EndpointConnectionError : pyclass :=
  Sub "EndpointConnectionError" BotoCoreError.
(** psycopg2 *)
Definition psycopg2_Error : pyclass := Sub "Error" Exception.
Definition DatabaseError : pyclass := Sub "DatabaseError" psycopg2_Error.
Definition OperationalError : pyclass := Sub "OperationalError" DatabaseError.
Definition ProgrammingError : pyclass := Sub "ProgrammingError" DatabaseError.
Definition UndefinedObject : pyclass := Sub "UndefinedObject" ProgrammingError.
Definition DuplicateObject : pyclass := Sub "DuplicateObject" ProgrammingError.

(** An exception instance: its class and what [str(error)] gives. *)
Record exn : Type := mkExn { exn_class : pyclass; exn_str : string }.

Definition isinstance (e : exn) (c : pyclass) : bool :=
  issubclass (exn_class e) c.

(** ** JSON values, as [json.loads] builds them *)

#[local] Unset Elimination Schemes.
Inductive json : Type :=
| JNull
| JBool (b : bool)
| JInt (n : Z)
| JFloat (repr : string)
| JStr (s : string)
| JList (items : list json)
| JDict (items : list (string * json)).   (* insertion order, keys unique *)
#[local] Set Elimination Schemes.

Fixpoint assoc_get (k : string) (kv : list (string * json)) : option json :=
  match kv with
  | [] => None
  | (k', v) :: rest => if String.eqb k k' then Some v else assoc_get k rest
  end.

(** [type(v).__name__] *)
Definition type_name (v : json) : string :=
  match v with
  | JNull => "NoneType"
  | JBool _ => "bool"
  | JInt _ => "int"
  | JFloat _ => "float"
  | JStr _ => "str"
  | JList _ => "list"
  | JDict _ => "dict"
  end.

(** [obj[key]] with a string key. *)
Definition getitem (obj : json) (key : string) : json + exn :=
  match obj with
  | JDict kv =>
      match assoc_get key kv with
      | Some v => inl v
      | None => inr (mkExn KeyError ("'" ++ key ++ "'")%string)
      end
  | JList _ =>
      inr (mkExn TypeError "list indices must be integers or slices, not str")
  | JStr _ =>
      inr (mkExn TypeError "string indices must be integers, not 'str'")
  | _ =>
      inr (mkExn TypeError
             ("'" ++ type_name obj ++ "' object is not subscriptable")%string)
  end.

(** A str is held as its UTF-8 bytes.  A byte [10xxxxxx] continues the
    character that the bytes before it began. *)
Definition continuation (a : ascii) : bool :=
  match a with
  | Ascii _ _ _ _ _ _ b6 b7 => b7 && negb b6
  end.

Definition continues (s : string) : bool :=
  match s with
  | String a _ => continuation a
  | EmptyString => false
  end.

(** The characters (code points) of a str, each as a str of its own. *)
Fixpoint chars (s : string) : list json :=
  match s with
  | EmptyString => []
  | String a rest =>
      if continues rest then
        match chars rest with
        | JStr c :: more => JStr (String a c) :: more
        | more => JStr (String a EmptyString) :: more
        end
      else JStr (String a EmptyString) :: chars rest
  end.

(** What iterating over a value yields: the elements of a list, the keys
    of a dict, the characters of a str; anything else is not iterable. *)
Definition py_iter (v : json) : list json + exn :=
  match v with
  | JList l => inl l
  | JDict kv => inl (map (fun p => JStr (fst p)) kv)
  | JStr s => inl (chars s)
  | _ =>
      inr (mkExn TypeError
             ("'" ++ type_name v ++ "' object is not iterable")%string)
  end.

Fixpoint enumerate_from {A : Type} (start : nat) (l : list A) : list (nat * A) :=
  match l with
  | [] => []
  | x :: rest => (start, x) :: enumerate_from (S start) rest
  end.

Definition enumerate {A : Type} (l : list A) : list (nat * A) :=
  enumerate_from 0 l.

(** ** Observable calls *)

Inductive level : Type := INFO | WARNING.

Inductive logmsg : Type :=
| MsgStr (s : string)
| MsgDict (items : list (string * string)).

(** One call to a collaborator, with the arguments the program passes.
    [EvLog] is the call to the logger ([msg], positional [args], [extra]),
    not what a formatter makes of it. *)
Inductive event : Type :=
| EvPut (StreamName : option string) (Data : string) (PartitionKey : string)
| EvLog (lvl : level) (msg : logmsg) (args : list string)
        (extra : list (string * string))
| EvFeedback (flush_lsn : Z)
| EvStart (slot_name : option string)
| EvCreateSlot (slot_name : option string) (output_plugin : string)
| EvCursorClose
| EvConnClose.

Definition history : Type := list event.

(** ** The libraries the program calls

    The outcome of a call may depend on everything that happened before it
    (the history of calls), so a transport that fails once and then
    recovers, or a slot created by another instance in the meantime, are
    instances.  [None] is a normal return, [Some e] raises [e].

    [json.dumps] is only applied to values that [json.loads] built, and
    does not raise on them.  The logger's methods, [send_feedback] (which
    records the position on the cursor) and the two [close] calls are
    taken to return: they appear as calls in the trace and have no
    outcome to decide. *)
Record Externals : Type := {
  json_loads : string -> json + exn;
  json_dumps : json -> string;
  put_record : history -> option string -> string -> string -> option exn;
  start_replication : history -> option string -> option exn;
  create_replication_slot : history -> option string -> string -> option exn
}.

(** [os.environ.get]: [None] when the variable is not set. *)
Record Config : Type := {
  replication_slot_name : option string;
  kinesis_stream_name : option string
}.

(** A replication message, as [consume_stream] hands it to the consumer. *)
Record Message : Type := { payload : string; data_start : Z }.

(** ** Computations

    A computation reads the history so far and gives the calls it adds to
    it and how it ends: a value, or an exception on its way up. *)
Definition M (A : Type) : Type := history -> list event * (A + exn).

Definition ret {A} (a : A) : M A := fun _ => ([], inl a).
Definition raise {A} (e : exn) : M A := fun _ => ([], inr e).

Definition bind {A B} (m : M A) (f : A -> M B) : M B :=
  fun h =>
    match m h with
    | (t1, inl a) => let (t2, r) := f a (h ++ t1) in (t1 ++ t2, r)
    | (t1, inr e) => (t1, inr e)
    end.

Notation "x <- m ;; k" := (bind m (fun x => k))
  (at level 61, m at next level, right associativity).
Notation "m ;; k" := (bind m (fun _ => k))
  (at level 61, right associativity).

(** A pure step that may raise. *)
Definition lift {A} (r : A + exn) : M A := fun _ => ([], r).

(** A call whose outcome the collaborator decides from the history. *)
Definition call (ev : event) (outcome : history -> option exn) : M unit :=
  fun h =>
    match outcome h with
    | None => ([ev], inl tt)
    | Some e => ([ev], inr e)
    end.

(** A call that does not raise. *)
Definition emit (ev : event) : M unit := fun _ => ([ev], inl tt).

(** One [except] clause: the class it names ([None] for a bare [except:])
    and its body. *)
Definition clause (A : Type) : Type := (option pyclass * (exn -> M A))%type.

Definition clause_matches {A} (c : clause A) (e : exn) : bool :=
  match fst c with
  | None => true
  | Some cls => isinstance e cls
  end.

(** The first clause, in source order, that matches. *)
Fixpoint dispatch {A} (cs : list (clause A)) (e : exn) : option (exn -> M A) :=
  match cs with
  | [] => None
  | c :: rest => if clause_matches c e then Some (snd c) else dispatch rest e
  end.

(** [try: body except ...]: an exception of the body goes to the first
    matching clause; one raised inside a clause is not caught by its
    siblings. *)
Definition try_except {A} (body : M A) (cs : list (clause A)) : M A :=
  fun h =>
    match body h with
    | (t1, inl a) => (t1, inl a)
    | (t1, inr e) =>
        match dispatch cs e with
        | Some k => let (t2, r) := k e (h ++ t1) in (t1 ++ t2, r)
        | None => (t1, inr e)
        end
    end.

(** [for x in l: body x] *)
Fixpoint for_each {A} (l : list A) (body : A -> M unit) : M unit :=
  match l with
  | [] => ret tt
  | x :: rest => body x ;; for_each rest body
  end.

Definition py_str (o : option string) : string :=
  match o with
  | Some s => s
  | None => "None"
  end.

(** ** The program *)

Section Program.

Context (E : Externals) (cfg : Config).

(** [enumerate(json.loads(msg.payload)["change"])], up to the indices:
    the change records of one payload, or the exception that evaluating
    the expression raises. *)
Definition decode (p : string) : list json + exn :=
  match json_loads E p with
  | inr e => inr e
  | inl doc =>
      match getitem doc "change" with
      | inr e => inr e
      | inl changes => py_iter changes
      end
  end.

(** Lines 39-44: the [try] body for one change. *)
Definition publish (change : json) : M unit :=
  let data := json_dumps E change in
  call (EvPut (kinesis_stream_name cfg) data "default")
       (fun h => put_record E h (kinesis_stream_name cfg) data "default") ;;
  emit (EvLog INFO
          (MsgStr "sent individual change message successfully to kinesis")
          [] [("msg_payload", json_dumps E change)]).

(** Lines 38-48: one iteration of the loop. *)
Definition forward_one (ic : nat * json) : M unit :=
  try_except (publish (snd ic))
    [ (Some ClientError,
       fun error =>
         emit (EvLog WARNING (MsgStr "Error transmitting record to kinesis")
                 [] [("error", exn_str error)])) ].

(** Line 37, the [for idx, change in enumerate(...)] statement, for a
    loop body [body]. *)
Definition for_changes (body : nat * json -> M unit) (p : string) : M unit :=
  items <- lift (decode p) ;;
  for_each (enumerate items) body.

(** Lines 37-48: the loop of the handler. *)
Definition forward_all (p : string) : M unit :=
  for_changes forward_one p.

(** Lines 55-59.  [error] is bound by the clause before this one only; here
    it has no value, and evaluating [str(error)] raises before the logger
    is called. *)
Definition bare_clause : exn -> M unit :=
  fun _ =>
    raise (mkExn UnboundLocalError
             "local variable 'error' referenced before assignment").

(** Lines 36-61, with the body of the last clause left open. *)
Definition call_with (last_clause : exn -> M unit) (msg : Message) : M unit :=
  try_except (forward_all (payload msg))
    [ (Some BaseException,
       fun error =>
         emit (EvLog WARNING (MsgStr "Failed to write to kinesis")
                 [] [("error", exn_str error)]) ;;
         raise error);
      (None, last_clause) ] ;;
  emit (EvFeedback (data_start msg)).

(** [ReplicationConsumer.__call__] *)
Definition ReplicationConsumer_call (msg : Message) : M unit :=
  call_with bare_clause msg.

(** [cur.consume_stream(consumer)]: the consumer is called on each message
    the session delivers, in order.  The call does not return: it ends
    with the exception of the consumer, or with the one ([final]) that
    ends the session after the last message it delivered. *)
Fixpoint consume_stream (consumer : Message -> M unit)
         (msgs : list Message) (final : exn) : M unit :=
  match msgs with
  | [] => raise final
  | m :: rest => consumer m ;; consume_stream consumer rest final
  end.

(** Line 69: the slot name of the first [start_replication], a literal. *)
Definition first_slot_name : option string := Some "wal2json".

(** Lines 68-78. *)
Definition open_session : M unit :=
  try_except
    (call (EvStart first_slot_name)
          (fun h => start_replication E h first_slot_name))
    [ (Some ProgrammingError,
       fun _ =>
         call (EvCreateSlot (replication_slot_name cfg) "wal2json")
              (fun h => create_replication_slot E h
                          (replication_slot_name cfg) "wal2json") ;;
         call (EvStart (replication_slot_name cfg))
              (fun h => start_replication E h (replication_slot_name cfg))) ].

Definition remediation : string :=
  ("The slot '" ++ py_str (replication_slot_name cfg) ++
   "' still exists. Drop it with SELECT pg_drop_replication_slot('" ++
   py_str (replication_slot_name cfg) ++ "'); if no longer needed.")%string.

(** Lines 80-87. *)
Definition teardown : exn -> M unit :=
  fun _ =>
    emit EvCursorClose ;;
    emit EvConnClose ;;
    emit (EvLog WARNING
            (MsgDict [("msg",
               "Transaction logs will accumulate in pg_xlog until the slot is dropped.")])
            [remediation] []).

(** Lines 66-87: the module body from "Starting streaming" on, for a
    session that delivers [msgs] and then ends with [final]. *)
Definition main (msgs : list Message) (final : exn) : M unit :=
  emit (EvLog INFO (MsgStr "Starting streaming") [] []) ;;
  try_except
    (open_session ;;
     consume_stream ReplicationConsumer_call msgs final)
    [ (None, teardown) ].

End Program.

(** The status the interpreter exits with when the module body has run:
    0 when it ran to its end, 1 when an exception left it. *)
Definition exit_code (r : unit + exn) : Z :=
  match r with
  | inl _ => 0
  | inr _ => 1
  end.

(** ** Reading a trace *)

Definition puts (t : list event) : list (option string * string * string) :=
  flat_map (fun ev => match ev with
                      | EvPut s d k => [(s, d, k)]
                      | _ => []
                      end) t.

(** The positions acknowledged, oldest first. *)
Definition acked (t : list event) : list Z :=
  flat_map (fun ev => match ev with
                      | EvFeedback p => [p]
                      | _ => []
                      end) t.

(** The checkpoint: the position acknowledged last. *)
Definition checkpoint (t : list event) : option Z :=
  match rev (acked t) with
  | [] => None
  | p :: _ => Some p
  end.

(** ** Outcomes of the forwarding loop

    The calls of one loop iteration, when [put_record] returns and when it
    raises a [ClientError]. *)
Definition sent_events (E : Externals) (cfg : Config) (change : json)
  : list event :=
  [ EvPut (kinesis_stream_name cfg) (json_dumps E change) "default";
    EvLog INFO (MsgStr "sent individual change message successfully to kinesis")
      [] [("msg_payload", json_dumps E change)] ].

Definition dropped_events (E : Externals) (cfg : Config) (change : json)
           (error : exn) : list event :=
  [ EvPut (kinesis_stream_name cfg) (json_dumps E change) "default";
    EvLog WARNING (MsgStr "Error transmitting record to kinesis")
      [] [("error", exn_str error)] ].

(** [forwarded E cfg h changes t]: from history [h], the transport answers
    the publish of each of [changes], in order, with success or with a
    [ClientError], and [t] is what that leaves in the trace: for each
    record its one [put_record] call followed by its log entry. *)
Inductive forwarded (E : Externals) (cfg : Config)
  : history -> list json -> list event -> Prop :=
| fwd_done : forall h, forwarded E cfg h [] []
| fwd_sent : forall h c cs t,
    put_record E h (kinesis_stream_name cfg) (json_dumps E c) "default" = None ->
    forwarded E cfg (h ++ sent_events E cfg c) cs t ->
    forwarded E cfg h (c :: cs) (sent_events E cfg c ++ t)
| fwd_dropped : forall h c cs t e,
    put_record E h (kinesis_stream_name cfg) (json_dumps E c) "default" = Some e ->
    isinstance e ClientError = true ->
    forwarded E cfg (h ++ dropped_events E cfg c e) cs t ->
    forwarded E cfg h (c :: cs) (dropped_events E cfg c e ++ t).

(** Every exception the transport's [put_record] raises is a
    [ClientError]: the publish failures the loop has a clause for. *)
Definition classified (E : Externals) : Prop :=
  forall h s d k e, put_record E h s d k = Some e ->
                    isinstance e ClientError = true.

(** What the publisher is expected to be called with for [changes]. *)
Definition expected_puts (E : Externals) (cfg : Config) (changes : list json)
  : list (option string * string * string) :=
  map (fun c => (kinesis_stream_name cfg, json_dumps E c, "default")) changes.

(** A batch whose payload is structured data with a top-level change
    list. *)
Definition well_formed (E : Externals) (p : string) (changes : list json)
  : Prop :=
  exists kv, json_loads E p = inl (JDict kv) /\
             assoc_get "change" kv = Some (JList changes).

(** The key every record is published under (line 42). *)
Definition partition_key_ok (ev : event) : Prop :=
  match ev with
  | EvPut _ _ k => k = "default"
  | _ => True
  end.

(** Any call but a feedback. *)
Definition not_feedback (ev : event) : Prop :=
  match ev with
  | EvFeedback _ => False
  | _ => True
  end.

(** A computation all of whose calls satisfy [P], whatever came before. *)
Definition emits_only {A} (P : event -> Prop) (m : M A) : Prop :=
  forall h, Forall P (fst (m h)).

(** ** Sample collaborators, for running the program on concrete input *)

Module Sample.

Definition dq : string := String (ascii_of_nat 34) EmptyString.

Definition two_changes_payload : string :=
  ("{" ++ dq ++ "change" ++ dq ++ ": [1, 2]}")%string.
Definition one_change_payload : string :=
  ("{" ++ dq ++ "change" ++ dq ++ ": [7]}")%string.
Definition no_change_payload : string :=
  ("{" ++ dq ++ "change" ++ dq ++ ": []}")%string.

Definition not_json : exn :=
  mkExn JSONDecodeError "Expecting value: line 1 column 1 (char 0)".

(** [json.loads] on the payloads used below; any other text here is not
    JSON. *)
Definition loads (s : string) : json + exn :=
  if String.eqb s two_changes_payload then
    inl (JDict [("change", JList [JInt 1; JInt 2])])
  else if String.eqb s one_change_payload then
    inl (JDict [("change", JList [JInt 7])])
  else if String.eqb s no_change_payload then
    inl (JDict [("change", JList [])])
  else if String.eqb s "{}" then inl (JDict [])
  else if String.eqb s "[]" then inl (JList [])
  else inr not_json.

(** [json.dumps] on the values used below. *)
Definition dumps (v : json) : string :=
  match v with
  | JNull => "null"
  | JBool true => "true"
  | JBool false => "false"
  | JInt 1 => "1"
  | JInt 2 => "2"
  | JInt 7 => "7"
  | JStr s => (dq ++ s ++ dq)%string
  | _ => "..."
  end.

Definition throttled : exn :=
  mkExn ClientError
    "An error occurred (ProvisionedThroughputExceededException) when calling the PutRecord operation: Rate exceeded".

Definition unreachable_endpoint : exn :=
  mkExn EndpointConnectionError "Could not connect to the endpoint URL".

Definition slot_missing : exn :=
  mkExn UndefinedObject "replication slot does not exist".

Definition slot_exists : exn :=
  mkExn DuplicateObject "replication slot already exists".

Definition connection_lost : exn :=
  mkExn OperationalError "server closed the connection unexpectedly".

(** A healthy transport and a database that has the slot. *)
Definition healthy : Externals :=
  {| json_loads := loads;
     json_dumps := dumps;
     put_record := fun _ _ _ _ => None;
     start_replication := fun _ _ => None;
     create_replication_slot := fun _ _ _ => None |}.

(** A transport that throttles the first [put_record] of the run and
    accepts every later one. *)
Definition throttled_once : Externals :=
  {| json_loads := loads;
     json_dumps := dumps;
     put_record := fun h _ _ _ =>
       match puts h with
       | [] => Some throttled
       | _ => None
       end;
     start_replication := fun _ _ => None;
     create_replication_slot := fun _ _ _ => None |}.

(** A transport whose endpoint cannot be reached. *)
Definition offline : Externals :=
  {| json_loads := loads;
     json_dumps := dumps;
     put_record := fun _ _ _ _ => Some unreachable_endpoint;
     start_replication := fun _ _ => None;
     create_replication_slot := fun _ _ _ => None |}.

(** A database without the slot, where another instance creates it
    between this one's failed start and its own create. *)
Definition raced : Externals :=
  {| json_loads := loads;
     json_dumps := dumps;
     put_record := fun _ _ _ _ => None;
     start_replication := fun h _ =>
       match h with
       | [] | [EvLog _ _ _ _] => Some slot_missing
       | _ => None
       end;
     create_replication_slot := fun _ _ _ => Some slot_exists |}.

(** A database without the slot, and nobody else creating it. *)
Definition fresh : Externals :=
  {| json_loads := loads;
     json_dumps := dumps;
     put_record := fun _ _ _ _ => None;
     start_replication := fun h _ =>
       if existsb (fun ev => match ev with
                             | EvCreateSlot _ _ => true
                             | _ => false
                             end) h
       then None else Some slot_missing;
     create_replication_slot := fun _ _ _ => None |}.

Definition config : Config :=
  {| replication_slot_name := Some "wal2json";
     kinesis_stream_name := Some "changes" |}.

Definition other_slot_config : Config :=
  {| replication_slot_name := Some "relay_slot";
     kinesis_stream_name := Some "changes" |}.

Definition two_changes : Message :=
  {| payload := two_changes_payload; data_start := 100 |}.
Definition one_change : Message :=
  {| payload := one_change_payload; data_start := 200 |}.
Definition no_change : Message :=
  {| payload := no_change_payload; data_start := 300 |}.
Definition garbled : Message :=
  {| payload := "{"; data_start := 400 |}.

End Sample.

(** ** Further readings of a trace and further sample input *)

(** A value that is neither a container nor a str. *)
Definition scalar (v : json) : Prop :=
  match v with
  | JNull | JBool _ | JInt _ | JFloat _ => True
  | _ => False
  end.

(** The stream every record goes to (line 40). *)
Definition stream_name_ok (cfg : Config) (ev : event) : Prop :=
  match ev with
  | EvPut s _ _ => s = kinesis_stream_name cfg
  | _ => True
  end.

(** Any call but the two [close] calls. *)
Definition not_close (ev : event) : Prop :=
  match ev with
  | EvCursorClose | EvConnClose => False
  | _ => True
  end.

(** A call that touches neither the transport nor the checkpoint. *)
Definition no_traffic (ev : event) : Prop :=
  match ev with
  | EvPut _ _ _ | EvFeedback _ => False
  | _ => True
  end.

(** A call made while the session is opened: a [start_replication] on
    the literal slot name, or one of the two calls of the recovery path,
    which name the configured slot. *)
Definition opening_call (cfg : Config) (ev : event) : Prop :=
  ev = EvStart first_slot_name \/
  ev = EvCreateSlot (replication_slot_name cfg) "wal2json" \/
  ev = EvStart (replication_slot_name cfg).

(** Every message of a session has a payload that decodes. *)
Definition all_decode (E : Externals) (msgs : list Message) : Prop :=
  Forall (fun m => exists items, decode E (payload m) = inl items) msgs.

Module Edge.

(** The euro sign, U+20AC, in UTF-8. *)
Definition euro : string :=
  String (ascii_of_nat 226)
    (String (ascii_of_nat 130) (String (ascii_of_nat 172) EmptyString)).

Definition text_payload : string :=
  ("{" ++ Sample.dq ++ "change" ++ Sample.dq ++ ": " ++
   Sample.dq ++ "a" ++ euro ++ Sample.dq ++ "}")%string.
Definition object_payload : string :=
  ("{" ++ Sample.dq ++ "change" ++ Sample.dq ++ ": {" ++
   Sample.dq ++ "kind" ++ Sample.dq ++ ": 1}}")%string.
Definition number_payload : string :=
  ("{" ++ Sample.dq ++ "change" ++ Sample.dq ++ ": 7}")%string.

(** [json.loads] on the payloads of this module and of [Sample]. *)
Definition loads (s : string) : json + exn :=
  if String.eqb s text_payload then
    inl (JDict [("change", JStr ("a" ++ euro)%string)])
  else if String.eqb s object_payload then
    inl (JDict [("change", JDict [("kind", JInt 1)])])
  else if String.eqb s number_payload then
    inl (JDict [("change", JInt 7)])
  else Sample.loads s.

(** [json.dumps] on the values used below; it escapes what is not
    ASCII. *)
Definition dumps (v : json) : string :=
  match v with
  | JStr s =>
      if String.eqb s euro
      then (Sample.dq ++ "\u20ac" ++ Sample.dq)%string
      else Sample.dumps v
  | _ => Sample.dumps v
  end.

Definition healthy : Externals :=
  {| json_loads := loads;
     json_dumps := dumps;
     put_record := fun _ _ _ _ => None;
     start_replication := fun _ _ => None;
     create_replication_slot := fun _ _ _ => None |}.

(** A database that cannot be reached any more. *)
Definition unreachable : Externals :=
  {| json_loads := loads;
     json_dumps := dumps;
     put_record := fun _ _ _ _ => None;
     start_replication := fun _ _ => Some Sample.connection_lost;
     create_replication_slot := fun _ _ _ => None |}.

Definition text_change : Message :=
  {| payload := text_payload; data_start := 500 |}.
Definition object_change : Message :=
  {| payload := object_payload; data_start := 600 |}.
Definition number_change : Message :=
  {| payload := number_payload; data_start := 700 |}.
Definition no_key : Message :=
  {| payload := "{}"; data_start := 800 |}.

End Edge.

Unset Implicit Arguments.

(** * Properties *)

(** ** The class hierarchy and the routing of exceptions *)

Lemma pyclass_eqb_refl (c : pyclass) : pyclass_eqb c c = true.
Proof.
  induction c as [|n p IH]; simpl; [reflexivity|].
  now rewrite String.eqb_refl, IH.
Qed.

Lemma issubclass_refl (c : pyclass) : issubclass c c = true.
Proof.
  destruct c; simpl; [reflexivity|].
  now rewrite String.eqb_refl, pyclass_eqb_refl.
Qed.

(** Everything that can be raised is a [BaseException]. *)
Lemma issubclass_BaseException (c : pyclass) : issubclass c BaseException = true.
Proof.
  induction c as [|n p IH]; simpl; [reflexivity|exact IH].
Qed.

Lemma isinstance_BaseException (e : exn) : isinstance e BaseException = true.
Proof. apply issubclass_BaseException. Qed.

(** ** Equations of the computations *)

Section Equations.

Context {A B : Type}.

Lemma bind_returns (m : M A) (f : A -> M B) h t1 a :
  m h = (t1, inl a) ->
  bind m f h = (t1 ++ fst (f a (h ++ t1)), snd (f a (h ++ t1))).
Proof.
  intros Hm. unfold bind. rewrite Hm. now destruct (f a (h ++ t1)).
Qed.

Lemma bind_raises (m : M A) (f : A -> M B) h t1 e :
  m h = (t1, inr e) -> bind m f h = (t1, inr e).
Proof. intros Hm. unfold bind. now rewrite Hm. Qed.

Lemma try_returns (m : M A) cs h t1 a :
  m h = (t1, inl a) -> try_except m cs h = (t1, inl a).
Proof. intros Hm. unfold try_except. now rewrite Hm. Qed.

Lemma try_caught (m : M A) cs h t1 e k :
  m h = (t1, inr e) -> dispatch cs e = Some k ->
  try_except m cs h = (t1 ++ fst (k e (h ++ t1)), snd (k e (h ++ t1))).
Proof.
  intros Hm Hd. unfold try_except. rewrite Hm, Hd. now destruct (k e (h ++ t1)).
Qed.

Lemma try_uncaught (m : M A) cs h t1 e :
  m h = (t1, inr e) -> dispatch cs e = None ->
  try_except m cs h = (t1, inr e).
Proof. intros Hm Hd. unfold try_except. now rewrite Hm, Hd. Qed.

End Equations.

(** ** One loop iteration *)

Section Iteration.

Context (E : Externals) (cfg : Config).

Let stream := kinesis_stream_name cfg.

Lemma publish_sent c h :
  put_record E h stream (json_dumps E c) "default" = None ->
  publish E cfg c h = (sent_events E cfg c, inl tt).
Proof.
  intros Hp. unfold publish, bind, call, emit. subst stream. now rewrite Hp.
Qed.

Lemma publish_failed c h e :
  put_record E h stream (json_dumps E c) "default" = Some e ->
  publish E cfg c h =
  ([EvPut stream (json_dumps E c) "default"], inr e).
Proof.
  intros Hp. unfold publish, bind, call. subst stream. now rewrite Hp.
Qed.

Lemma forward_one_sent ic h :
  put_record E h stream (json_dumps E (snd ic)) "default" = None ->
  forward_one E cfg ic h = (sent_events E cfg (snd ic), inl tt).
Proof.
  intros Hp. unfold forward_one.
  erewrite try_returns; [reflexivity|]. now apply publish_sent.
Qed.

Lemma forward_one_dropped ic h e :
  put_record E h stream (json_dumps E (snd ic)) "default" = Some e ->
  isinstance e ClientError = true ->
  forward_one E cfg ic h = (dropped_events E cfg (snd ic) e, inl tt).
Proof.
  intros Hp Hc. unfold forward_one.
  unfold try_except. rewrite (publish_failed _ _ _ Hp).
  cbn [dispatch clause_matches fst snd]. now rewrite Hc.
Qed.

Lemma forward_one_unhandled ic h e :
  put_record E h stream (json_dumps E (snd ic)) "default" = Some e ->
  isinstance e ClientError = false ->
  forward_one E cfg ic h =
  ([EvPut stream (json_dumps E (snd ic)) "default"], inr e).
Proof.
  intros Hp Hc. unfold forward_one.
  apply try_uncaught; [now apply publish_failed|].
  cbn [dispatch clause_matches fst snd]. now rewrite Hc.
Qed.

(** The loop over records whose publish outcomes are all success or
    [ClientError] runs to its end and leaves exactly their trace. *)
Lemma for_each_forwarded h items t :
  forwarded E cfg h items t ->
  forall n, for_each (enumerate_from n items) (forward_one E cfg) h = (t, inl tt).
Proof.
  induction 1 as [h | h c cs t Hp _ IH | h c cs t e Hp Hc _ IH]; intros n.
  - reflexivity.
  - simpl. erewrite bind_returns by (apply forward_one_sent; exact Hp).
    now rewrite IH.
  - simpl. erewrite bind_returns by (eapply forward_one_dropped; [exact Hp|exact Hc]).
    now rewrite IH.
Qed.

(** When the transport raises nothing but [ClientError], every list of
    records is forwarded from every history. *)
Lemma classified_forwarded :
  classified E -> forall items h, exists t, forwarded E cfg h items t.
Proof.
  intros Hcl items. induction items as [|c cs IH]; intros h.
  - exists []. constructor.
  - destruct (put_record E h (kinesis_stream_name cfg) (json_dumps E c) "default")
      as [e|] eqn:Hp.
    + destruct (IH (h ++ dropped_events E cfg c e)) as [t Ht].
      exists (dropped_events E cfg c e ++ t).
      eapply fwd_dropped; eauto.
    + destruct (IH (h ++ sent_events E cfg c)) as [t Ht].
      exists (sent_events E cfg c ++ t).
      now apply fwd_sent.
Qed.

Lemma forwarded_puts h items t :
  forwarded E cfg h items t -> puts t = expected_puts E cfg items.
Proof.
  induction 1; simpl; [reflexivity| |]; unfold expected_puts in *; simpl;
    now f_equal.
Qed.

Lemma forwarded_acked h items t :
  forwarded E cfg h items t -> acked t = [].
Proof. induction 1; simpl; auto. Qed.

End Iteration.

Lemma acked_app t1 t2 : acked (t1 ++ t2) = acked t1 ++ acked t2.
Proof. unfold acked. apply flat_map_app. Qed.

Lemma puts_app t1 t2 : puts (t1 ++ t2) = puts t1 ++ puts t2.
Proof. unfold puts. apply flat_map_app. Qed.

(** ** The batch handler *)

Section Handler.

Context (E : Externals) (cfg : Config).

Lemma forward_all_decoded p items h :
  decode E p = inl items ->
  forward_all E cfg p h = for_each (enumerate items) (forward_one E cfg) h.
Proof.
  intros Hd. unfold forward_all, for_changes, bind, lift.
  rewrite Hd, app_nil_r.
  now destruct (for_each (enumerate items) (forward_one E cfg) h).
Qed.

Lemma forward_all_malformed p e h :
  decode E p = inr e -> forward_all E cfg p h = ([], inr e).
Proof.
  intros Hd. unfold forward_all, for_changes, bind, lift. now rewrite Hd.
Qed.

(** An exception that leaves the loop is logged and raised again: the
    statement after the [try] is not reached. *)
Lemma call_with_raised last msg h t e :
  forward_all E cfg (payload msg) h = (t, inr e) ->
  call_with E cfg last msg h =
  (t ++ [EvLog WARNING (MsgStr "Failed to write to kinesis")
           [] [("error", exn_str e)]], inr e).
Proof.
  intros Hf. unfold call_with. apply bind_raises.
  unfold try_except. rewrite Hf.
  cbn [dispatch clause_matches fst snd].
  now rewrite isinstance_BaseException.
Qed.

(** A loop that ends normally is followed by the feedback. *)
Lemma call_with_returned last msg h t :
  forward_all E cfg (payload msg) h = (t, inl tt) ->
  call_with E cfg last msg h = (t ++ [EvFeedback (data_start msg)], inl tt).
Proof.
  intros Hf. unfold call_with.
  erewrite bind_returns by (apply try_returns; exact Hf).
  reflexivity.
Qed.

Lemma call_forwarded msg items h t :
  decode E (payload msg) = inl items ->
  forwarded E cfg h items t ->
  ReplicationConsumer_call E cfg msg h =
  (t ++ [EvFeedback (data_start msg)], inl tt).
Proof.
  intros Hd Hf. apply call_with_returned.
  rewrite (forward_all_decoded _ _ _ Hd).
  now apply for_each_forwarded.
Qed.

Lemma forward_one_puts ic h :
  puts (fst (forward_one E cfg ic h)) =
  [(kinesis_stream_name cfg, json_dumps E (snd ic), "default")].
Proof.
  destruct (put_record E h (kinesis_stream_name cfg) (json_dumps E (snd ic))
              "default") as [e|] eqn:Hp.
  - destruct (isinstance e ClientError) eqn:Hc.
    + now rewrite (forward_one_dropped E cfg ic h e Hp Hc).
    + now rewrite (forward_one_unhandled E cfg ic h e Hp Hc).
  - now rewrite (forward_one_sent E cfg ic h Hp).
Qed.

(** The loop publishes the records in order, each once, up to the point
    where it stops; it publishes all of them when it ends normally. *)
Lemma for_each_puts items :
  forall n h,
    let run := for_each (enumerate_from n items) (forward_one E cfg) h in
    (exists k, puts (fst run) = firstn k (expected_puts E cfg items)) /\
    (snd run = inl tt -> puts (fst run) = expected_puts E cfg items).
Proof.
  induction items as [|c cs IH]; intros n h; cbn zeta.
  - split; [exists 0|]; reflexivity.
  - cbn [enumerate_from for_each]. unfold bind.
    pose proof (forward_one_puts (n, c) h) as Hone.
    destruct (forward_one E cfg (n, c) h) as [t1 [[]|e]]; cbn [fst snd] in *.
    + destruct (IH (S n) (h ++ t1)) as [[k Hk] Hall].
      destruct (for_each (enumerate_from (S n) cs) (forward_one E cfg) (h ++ t1))
        as [t2 r]; cbn [fst snd] in *.
      rewrite puts_app, Hone. split.
      * exists (S k). now rewrite Hk.
      * intros Hr. now rewrite (Hall Hr).
    + split; [|discriminate]. exists 1. now rewrite Hone.
Qed.

Lemma call_puts msg items h :
  decode E (payload msg) = inl items ->
  let run := ReplicationConsumer_call E cfg msg h in
  (exists k, puts (fst run) = firstn k (expected_puts E cfg items)) /\
  (snd run = inl tt -> puts (fst run) = expected_puts E cfg items).
Proof.
  intros Hd. cbn zeta. unfold ReplicationConsumer_call.
  pose proof (for_each_puts items 0 h) as Hloop. cbn zeta in Hloop.
  fold (enumerate items) in Hloop.
  rewrite <- (forward_all_decoded _ _ h Hd) in Hloop.
  destruct (forward_all E cfg (payload msg) h) as [t [[]|e]] eqn:Hf;
    cbn [fst snd] in Hloop.
  - rewrite (call_with_returned _ _ _ _ Hf). cbn [fst snd].
    rewrite puts_app, app_nil_r. exact Hloop.
  - rewrite (call_with_raised _ _ _ _ _ Hf). cbn [fst snd].
    rewrite puts_app, app_nil_r. split; [apply Hloop|discriminate].
Qed.

End Handler.

Lemma checkpoint_after_feedback t p : checkpoint (t ++ [EvFeedback p]) = Some p.
Proof.
  unfold checkpoint. rewrite acked_app. simpl.
  now rewrite rev_app_distr.
Qed.

Lemma enumerate_from_indices {A} (l : list A) :
  forall n, map fst (enumerate_from n l) = seq n (List.length l).
Proof. induction l as [|x l IH]; intros n; simpl; [|rewrite IH]; reflexivity. Qed.

Lemma enumerate_from_values {A} (l : list A) :
  forall n, map snd (enumerate_from n l) = l.
Proof. induction l as [|x l IH]; intros n; simpl; [|rewrite IH]; reflexivity. Qed.

Lemma well_formed_decode E p changes :
  well_formed E p changes -> decode E p = inl changes.
Proof.
  intros [kv [Hl Hk]]. unfold decode. rewrite Hl. simpl. now rewrite Hk.
Qed.

(** ** Claims about the batch handler *)

(** C10.  The last clause of the handler, the bare [except:] that follows
    [except BaseException], is dead: every exception is an instance of
    [BaseException] and is taken by the clause before it, so whatever the
    last clause contained, the handler would do the same on every message
    from every history. *)
Theorem bare_clause_unreachable (E : Externals) (cfg : Config) :
  (forall e, isinstance e BaseException = true) /\
  (forall (other : exn -> M unit) msg h,
      call_with E cfg other msg h = ReplicationConsumer_call E cfg msg h).
Proof.
  split; [exact isinstance_BaseException|].
  intros other msg h. unfold ReplicationConsumer_call.
  destruct (forward_all E cfg (payload msg) h) as [t [[]|e]] eqn:Hf.
  - now rewrite !(call_with_returned _ _ _ _ _ _ Hf).
  - now rewrite !(call_with_raised _ _ _ _ _ _ _ Hf).
Qed.

(** C1, as the code has it.  When evaluating
    [json.loads(msg.payload)["change"]] (or iterating over it) raises, the
    handler logs the warning "Failed to write to kinesis" with the error
    and raises the same exception again: nothing is published and no
    feedback is sent for the batch. *)
Theorem malformed_batch_reraised (E : Externals) (cfg : Config)
        (msg : Message) (e : exn) (h : history) :
  decode E (payload msg) = inr e ->
  ReplicationConsumer_call E cfg msg h =
  ([EvLog WARNING (MsgStr "Failed to write to kinesis")
      [] [("error", exn_str e)]], inr e).
Proof.
  intros Hd. unfold ReplicationConsumer_call.
  now rewrite (call_with_raised _ _ _ _ _ _ _ (forward_all_malformed E cfg _ _ h Hd)).
Qed.

Lemma malformed_batch_reraised_witness :
  ReplicationConsumer_call Sample.healthy Sample.config Sample.garbled [] =
  ([EvLog WARNING (MsgStr "Failed to write to kinesis") []
      [("error", exn_str Sample.not_json)]],
   inr Sample.not_json).
Proof.
  apply (malformed_batch_reraised Sample.healthy Sample.config Sample.garbled
           Sample.not_json []).
  reflexivity.
Defined.

(** C1 fails as stated: on a payload that is not JSON the handler ends
    with the decode error and has sent no feedback, so the checkpoint has
    not moved to the batch's start position. *)
Lemma malformed_batch_not_acknowledged :
  let run := ReplicationConsumer_call Sample.healthy Sample.config
               Sample.garbled [] in
  (exists e, decode Sample.healthy (payload Sample.garbled) = inr e /\
             snd run = inr e) /\
  ~ In (EvFeedback (data_start Sample.garbled)) (fst run) /\
  checkpoint (fst run) <> Some (data_start Sample.garbled).
Proof.
  split; [eexists; split; reflexivity|].
  split; vm_compute.
  - intros [H|[]]. discriminate H.
  - discriminate.
Qed.

Lemma throttled_once_classified : classified Sample.throttled_once.
Proof.
  intros h s d k e. simpl. destruct (puts h); [|discriminate].
  intros He. injection He as <-. reflexivity.
Qed.



(** The same on a batch without any change entry. *)
Example empty_batch_acknowledged :
  ReplicationConsumer_call Sample.healthy Sample.config Sample.no_change [] =
  ([EvFeedback 300%Z], inl tt).
Proof. reflexivity. Qed.

Lemma enumerate_combine {A} (l : list A) :
  forall n, enumerate_from n l = combine (seq n (List.length l)) l.
Proof.
  induction l as [|x l IH]; intros n; simpl; [|rewrite IH]; reflexivity.
Qed.

(** C4, as the code has it.  For a payload that is structured data with a
    top-level list of N change entries, the [for] statement runs its body
    on exactly these N entries in their order, paired with the indices 0
    to N-1.  The publisher is called with the records in that order, each
    at most once and none skipped; when the handler returns it has been
    called once for every record, and the handler does return when what
    [put_record] raises is a [ClientError]. *)
Theorem decoded_in_order_published_once (E : Externals) (cfg : Config)
        (msg : Message) (changes : list json) (h : history) :
  well_formed E (payload msg) changes ->
  let run := ReplicationConsumer_call E cfg msg h in
  let indexed := combine (seq 0 (List.length changes)) changes in
  decode E (payload msg) = inl changes /\
  (forall body h', for_changes E body (payload msg) h' =
                   for_each indexed body h') /\
  map fst indexed = seq 0 (List.length changes) /\
  map snd indexed = changes /\
  (exists k, puts (fst run) = firstn k (expected_puts E cfg changes)) /\
  (snd run = inl tt -> puts (fst run) = expected_puts E cfg changes) /\
  (classified E -> snd run = inl tt).
Proof.
  intros Hwf run indexed. subst run indexed.
  pose proof (well_formed_decode E _ _ Hwf) as Hd.
  destruct (call_puts E cfg msg changes h Hd) as [Hprefix Hall].
  rewrite <- (enumerate_combine changes 0). fold (enumerate changes).
  repeat split.
  - exact Hd.
  - intros body h'. unfold for_changes, bind, lift. rewrite Hd, app_nil_r.
    now destruct (for_each (enumerate changes) body h').
  - apply enumerate_from_indices.
  - apply enumerate_from_values.
  - exact Hprefix.
  - exact Hall.
  - intros Hcl.
    destruct (classified_forwarded E cfg Hcl changes h) as [t Ht].
    now rewrite (call_forwarded E cfg msg changes h t Hd Ht).
Qed.

Lemma decoded_in_order_published_once_witness :
  let E := Sample.throttled_once in
  let cfg := Sample.config in
  let changes := [JInt 1; JInt 2] in
  let run := ReplicationConsumer_call E cfg Sample.two_changes [] in
  let indexed := combine (seq 0 (List.length changes)) changes in
  decode E (payload Sample.two_changes) = inl changes /\
  (forall body h', for_changes E body (payload Sample.two_changes) h' =
                   for_each indexed body h') /\
  map fst indexed = seq 0 (List.length changes) /\
  map snd indexed = changes /\
  (exists k, puts (fst run) = firstn k (expected_puts E cfg changes)) /\
  (snd run = inl tt -> puts (fst run) = expected_puts E cfg changes) /\
  (classified E -> snd run = inl tt).
Proof.
  apply (decoded_in_order_published_once Sample.throttled_once Sample.config
           Sample.two_changes [JInt 1; JInt 2] []).
  exists [("change", JList [JInt 1; JInt 2])]. split; reflexivity.
Defined.

(** C4 fails as stated: the payload is well formed with two change
    entries, the endpoint of the transport cannot be reached, and the
    publisher is called for the first record only. *)
Lemma second_record_not_published :
  let E := Sample.offline in
  let cfg := Sample.config in
  let run := ReplicationConsumer_call E cfg Sample.two_changes [] in
  well_formed E (payload Sample.two_changes) [JInt 1; JInt 2] /\
  puts (fst run) = [(Some "changes", "1", "default")] /\
  puts (fst run) <> expected_puts E cfg [JInt 1; JInt 2].
Proof.
  split; [|split].
  - exists [("change", JList [JInt 1; JInt 2])]. split; reflexivity.
  - reflexivity.
  - vm_compute. discriminate.
Qed.

Example two_changes_published :
  puts (fst (ReplicationConsumer_call Sample.throttled_once Sample.config
               Sample.two_changes [])) =
  [(Some "changes", "1", "default"); (Some "changes", "2", "default")].
Proof. reflexivity. Qed.

(** An exception of [put_record] that is not a [ClientError] ends the
    loop at its record: it is the handler's outer clause that takes it. *)
Example unclassified_failure_ends_loop :
  ReplicationConsumer_call Sample.offline Sample.config Sample.two_changes [] =
  ([EvPut (Some "changes") "1" "default";
    EvLog WARNING (MsgStr "Failed to write to kinesis") []
      [("error", "Could not connect to the endpoint URL")]],
   inr Sample.unreachable_endpoint).
Proof. reflexivity. Qed.

(** C5, as the code has it.  A record whose publish raises a
    [ClientError] gets no second attempt: its iteration is the one
    [put_record] call and the warning "Error transmitting record to
    kinesis" with the error, and the loop goes on at once with the
    records after it. *)
Theorem failed_publish_single_attempt (E : Externals) (cfg : Config)
        (ic : nat * json) (rest : list (nat * json)) (h : history) (e : exn) :
  put_record E h (kinesis_stream_name cfg) (json_dumps E (snd ic)) "default"
    = Some e ->
  isinstance e ClientError = true ->
  let mine := dropped_events E cfg (snd ic) e in
  let others := for_each rest (forward_one E cfg) (h ++ mine) in
  for_each (ic :: rest) (forward_one E cfg) h =
    (mine ++ fst others, snd others) /\
  puts mine = [(kinesis_stream_name cfg, json_dumps E (snd ic), "default")].
Proof.
  intros Hp Hc mine others. split; [|reflexivity].
  subst mine others. cbn [for_each].
  now rewrite (bind_returns _ _ _ _ _ (forward_one_dropped E cfg ic h e Hp Hc)).
Qed.

Lemma failed_publish_single_attempt_witness :
  let E := Sample.throttled_once in
  let cfg := Sample.config in
  let mine := dropped_events E cfg (JInt 1) Sample.throttled in
  let others := for_each [(1, JInt 2)] (forward_one E cfg) ([] ++ mine) in
  for_each [(0, JInt 1); (1, JInt 2)] (forward_one E cfg) [] =
    (mine ++ fst others, snd others) /\
  puts mine = [(Some "changes", "1", "default")].
Proof.
  apply (failed_publish_single_attempt Sample.throttled_once Sample.config
           (0, JInt 1) [(1, JInt 2)] [] Sample.throttled);
    reflexivity.
Defined.

(** C5 fails as stated: the transport throttles the first publish of the
    only record and would accept a second one, yet the handler calls
    [put_record] once, logs the failure and acknowledges the batch. *)
Lemma throttled_record_not_retried :
  let E := Sample.throttled_once in
  let cfg := Sample.config in
  let run := ReplicationConsumer_call E cfg Sample.one_change [] in
  put_record E [] (Some "changes") "7" "default" = Some Sample.throttled /\
  isinstance Sample.throttled ClientError = true /\
  put_record E [EvPut (Some "changes") "7" "default"]
    (Some "changes") "7" "default" = None /\
  run = ([EvPut (Some "changes") "7" "default";
          EvLog WARNING (MsgStr "Error transmitting record to kinesis") []
            [("error", exn_str Sample.throttled)];
          EvFeedback 200%Z], inl tt) /\
  List.length (puts (fst run)) = 1.
Proof. repeat split. Qed.

(** ** What a computation can emit *)

Section EmitsOnly.

Context (P : event -> Prop).

Lemma emits_only_ret {A} (a : A) : emits_only P (ret a).
Proof. intros h. constructor. Qed.

Lemma emits_only_raise {A} (e : exn) : emits_only P (@raise A e).
Proof. intros h. constructor. Qed.

Lemma emits_only_lift {A} (r : A + exn) : emits_only P (lift r).
Proof. intros h. constructor. Qed.

Lemma emits_only_emit ev : P ev -> emits_only P (emit ev).
Proof. intros Hev h. simpl. auto. Qed.

Lemma emits_only_call ev outcome : P ev -> emits_only P (call ev outcome).
Proof.
  intros Hev h. unfold call. destruct (outcome h); simpl; auto.
Qed.

Lemma emits_only_bind {A B} (m : M A) (f : A -> M B) :
  emits_only P m -> (forall a, emits_only P (f a)) -> emits_only P (bind m f).
Proof.
  intros Hm Hf h. unfold bind.
  specialize (Hm h). destruct (m h) as [t1 [a|e]]; [|exact Hm].
  specialize (Hf a (h ++ t1)). destruct (f a (h ++ t1)) as [t2 r].
  simpl in *. apply Forall_app. now split.
Qed.

Lemma dispatch_some {A} (cs : list (clause A)) e k :
  dispatch cs e = Some k -> exists c, In c cs /\ snd c = k.
Proof.
  induction cs as [|c cs IH]; simpl; [discriminate|].
  destruct (clause_matches c e).
  - intros [= <-]. exists c. auto.
  - intros Hd. destruct (IH Hd) as [c' [Hin Hk]]. exists c'. auto.
Qed.

Lemma emits_only_try {A} (m : M A) (cs : list (clause A)) :
  emits_only P m ->
  (forall c, In c cs -> forall e, emits_only P (snd c e)) ->
  emits_only P (try_except m cs).
Proof.
  intros Hm Hcs h. unfold try_except.
  specialize (Hm h). destruct (m h) as [t1 [a|e]]; [exact Hm|].
  destruct (dispatch cs e) as [k|] eqn:Hd; [|exact Hm].
  destruct (dispatch_some _ _ _ Hd) as [c [Hin <-]].
  specialize (Hcs c Hin e (h ++ t1)).
  destruct (snd c e (h ++ t1)) as [t2 r].
  simpl in *. apply Forall_app. now split.
Qed.

Lemma emits_only_for_each {A} (l : list A) (body : A -> M unit) :
  (forall x, emits_only P (body x)) -> emits_only P (for_each l body).
Proof.
  intros Hb. induction l as [|x l IH]; simpl.
  - apply emits_only_ret.
  - apply emits_only_bind; auto.
Qed.

Lemma emits_only_consume consumer msgs final :
  (forall m, emits_only P (consumer m)) ->
  emits_only P (consume_stream consumer msgs final).
Proof.
  intros Hc. induction msgs as [|m msgs IH]; simpl.
  - apply emits_only_raise.
  - apply emits_only_bind; auto.
Qed.

End EmitsOnly.

Create HintDb emits.
#[local] Hint Resolve emits_only_ret emits_only_raise emits_only_lift
  emits_only_emit emits_only_call emits_only_bind emits_only_for_each
  emits_only_consume : emits.

(** Clause lists of one and of two clauses. *)
Ltac clauses :=
  let c := fresh "c" in
  let Hin := fresh "Hin" in
  intros c Hin; simpl in Hin;
  repeat (destruct Hin as [<-|Hin]; [intros ?; cbn [snd]|]);
  try contradiction.

Section Shapes.

Context (E : Externals) (cfg : Config) (P : event -> Prop).

(** A property of the calls of one iteration extends to the loop. *)
Lemma emits_only_forward_all p :
  (forall c e, Forall P (dropped_events E cfg c e)) ->
  (forall c, Forall P (sent_events E cfg c)) ->
  emits_only P (forward_all E cfg p).
Proof.
  intros Hdrop Hsent. unfold forward_all, for_changes.
  apply emits_only_bind; [apply emits_only_lift|].
  intros items. apply emits_only_for_each. intros ic.
  pose proof (Hsent (snd ic)) as Hs.
  unfold sent_events in Hs. inversion Hs as [|? ? Hput Hs']; subst.
  inversion Hs' as [|? ? Hinfo _]; subst.
  unfold forward_one. apply emits_only_try.
  - unfold publish. apply emits_only_bind; [now apply emits_only_call|].
    intros _. now apply emits_only_emit.
  - clauses. apply emits_only_emit.
    pose proof (Hdrop (snd ic) e) as Hd.
    unfold dropped_events in Hd. inversion Hd as [|? ? _ Hd']; subst.
    now inversion Hd'.
Qed.

End Shapes.

Lemma not_feedback_acked t : Forall not_feedback t -> acked t = [].
Proof.
  induction 1 as [|ev t Hev _ IH]; [reflexivity|].
  destruct ev; simpl in *; try exact IH. contradiction.
Qed.

Lemma partition_key_puts t :
  Forall partition_key_ok t ->
  Forall (fun p => snd p = "default") (puts t).
Proof.
  induction 1 as [|ev t Hev _ IH]; [constructor|].
  destruct ev; simpl in *; try exact IH. constructor; assumption.
Qed.

Section Runs.

Context (E : Externals) (cfg : Config).

Lemma forward_all_no_feedback p h :
  acked (fst (forward_all E cfg p h)) = [].
Proof.
  apply not_feedback_acked.
  apply emits_only_forward_all; intros; repeat constructor.
Qed.

(** The handler either returns, having acknowledged its batch and nothing
    else, or raises, having acknowledged nothing. *)
Lemma call_acked msg h :
  let run := ReplicationConsumer_call E cfg msg h in
  (snd run = inl tt /\ acked (fst run) = [data_start msg] /\
   checkpoint (h ++ fst run) = Some (data_start msg)) \/
  (exists e, snd run = inr e /\ acked (fst run) = []).
Proof.
  unfold ReplicationConsumer_call.
  pose proof (forward_all_no_feedback (payload msg) h) as Hn.
  destruct (forward_all E cfg (payload msg) h) as [t [[]|e]] eqn:Hf;
    cbn [fst] in Hn.
  - left. rewrite (call_with_returned _ _ _ _ _ _ Hf). cbn [fst snd].
    rewrite acked_app, Hn, app_assoc, checkpoint_after_feedback. auto.
  - right. exists e. rewrite (call_with_raised _ _ _ _ _ _ _ Hf). cbn [fst snd].
    rewrite acked_app, Hn. auto.
Qed.

(** The positions acknowledged during a session are the start positions
    of a prefix of the batches it delivered, in order. *)
Lemma consume_stream_acked msgs final :
  forall h, exists k,
    acked (fst (consume_stream (ReplicationConsumer_call E cfg) msgs final h)) =
    map data_start (firstn k msgs).
Proof.
  induction msgs as [|m msgs IH]; intros h.
  - exists 0. reflexivity.
  - cbn [consume_stream].
    destruct (call_acked m h) as [[Hr [Ha _]]|[e [Hr Ha]]];
      destruct (ReplicationConsumer_call E cfg m h) as [t1 r] eqn:Hc;
      cbn [fst snd] in *; subst r.
    + destruct (IH (h ++ t1)) as [k Hk].
      exists (S k). rewrite (bind_returns _ _ _ _ _ Hc). cbn [fst].
      rewrite acked_app, Ha, Hk. reflexivity.
    + exists 0. rewrite (bind_raises _ _ _ _ _ Hc). cbn [fst]. exact Ha.
Qed.

(** [consume_stream] ends with an exception. *)
Lemma consume_stream_raises consumer msgs final :
  forall h, exists e, snd (consume_stream consumer msgs final h) = inr e.
Proof.
  induction msgs as [|m msgs IH]; intros h.
  - exists final. reflexivity.
  - cbn [consume_stream]. unfold bind.
    destruct (consumer m h) as [t1 [[]|e]].
    + destruct (IH (h ++ t1)) as [e He].
      destruct (consume_stream consumer msgs final (h ++ t1)) as [t2 r].
      exists e. exact He.
    + exists e. reflexivity.
Qed.

End Runs.

Lemma StronglySorted_firstn {A} (R : A -> A -> Prop) (l : list A) :
  StronglySorted R l -> forall k, StronglySorted R (firstn k l).
Proof.
  induction 1 as [|x l Hs IH Hx]; intros [|k]; simpl; try constructor.
  - apply IH.
  - rewrite Forall_forall in *. intros y Hy. apply Hx.
    rewrite <- (firstn_skipn k l). apply in_or_app. now left.
Qed.

(** ** Claims about whole runs *)

#[local] Hint Extern 1 (partition_key_ok _) => exact I || reflexivity : emits.

Section PartitionKey.

Context (E : Externals) (cfg : Config).

Lemma handler_partition_key msg :
  emits_only partition_key_ok (ReplicationConsumer_call E cfg msg).
Proof.
  unfold ReplicationConsumer_call, call_with.
  apply emits_only_bind; [|auto with emits].
  apply emits_only_try.
  - apply emits_only_forward_all; intros; repeat constructor.
  - clauses; unfold bare_clause; auto with emits.
Qed.

Lemma open_session_partition_key :
  emits_only partition_key_ok (open_session E cfg).
Proof.
  unfold open_session.
  apply emits_only_try; [|clauses]; auto with emits.
Qed.

Lemma main_partition_key msgs final :
  emits_only partition_key_ok (main E cfg msgs final).
Proof.
  pose proof open_session_partition_key.
  pose proof handler_partition_key.
  unfold main. apply emits_only_bind; [auto with emits|].
  intros _. apply emits_only_try; [|clauses; unfold teardown];
    auto 7 with emits.
Qed.

End PartitionKey.

(** C9.  Every [put_record] call, of the handler on any message and of a
    whole run of the program on any session, whatever the payloads decode
    to and whatever the transport answers, has the partition key
    "default". *)
Theorem single_partition_key (E : Externals) (cfg : Config) :
  (forall msg h,
      Forall (fun p => snd p = "default")
             (puts (fst (ReplicationConsumer_call E cfg msg h)))) /\
  (forall msgs final h,
      Forall (fun p => snd p = "default")
             (puts (fst (main E cfg msgs final h)))).
Proof.
  split; intros; apply partition_key_puts.
  - apply handler_partition_key.
  - apply main_partition_key.
Qed.

(** C8.  When the session delivers its batches with non-decreasing start
    positions, the positions acknowledged in the course of
    [consume_stream] are non-decreasing: they are the start positions of
    the batches handled to their end, in order.  And whenever the handler
    returns from a batch, the checkpoint is that batch's start
    position. *)
Theorem checkpoint_monotone (E : Externals) (cfg : Config)
        (msgs : list Message) (final : exn) (h : history) :
  Sorted Z.le (map data_start msgs) ->
  let t := fst (consume_stream (ReplicationConsumer_call E cfg) msgs final h) in
  StronglySorted Z.le (acked t) /\
  (exists k, acked t = map data_start (firstn k msgs)) /\
  (forall msg h',
      snd (ReplicationConsumer_call E cfg msg h') = inl tt ->
      checkpoint (h' ++ fst (ReplicationConsumer_call E cfg msg h'))
      = Some (data_start msg)).
Proof.
  intros Hs t. subst t.
  destruct (consume_stream_acked E cfg msgs final h) as [k Hk].
  repeat split.
  - rewrite Hk, <- firstn_map. apply StronglySorted_firstn.
    apply Sorted_StronglySorted; [|exact Hs].
    intros x y z. apply Z.le_trans.
  - exists k. exact Hk.
  - intros msg h' Hr.
    destruct (call_acked E cfg msg h') as [[_ [_ Hc]]|[e [He _]]].
    + exact Hc.
    + rewrite Hr in He. discriminate He.
Qed.

Lemma checkpoint_monotone_witness :
  let t := fst (consume_stream
                  (ReplicationConsumer_call Sample.throttled_once Sample.config)
                  [Sample.two_changes; Sample.one_change; Sample.no_change]
                  Sample.connection_lost []) in
  StronglySorted Z.le (acked t) /\
  (exists k, acked t =
             map data_start
               (firstn k [Sample.two_changes; Sample.one_change;
                          Sample.no_change])) /\
  (forall msg h',
      snd (ReplicationConsumer_call Sample.throttled_once Sample.config msg h')
        = inl tt ->
      checkpoint
        (h' ++ fst (ReplicationConsumer_call Sample.throttled_once
                      Sample.config msg h'))
      = Some (data_start msg)).
Proof.
  apply (checkpoint_monotone Sample.throttled_once Sample.config
           [Sample.two_changes; Sample.one_change; Sample.no_change]
           Sample.connection_lost []).
  simpl. repeat constructor; lia.
Defined.

Example acknowledged_positions :
  acked (fst (consume_stream
                (ReplicationConsumer_call Sample.throttled_once Sample.config)
                [Sample.two_changes; Sample.one_change; Sample.no_change]
                Sample.connection_lost []))
  = [100; 200; 300]%Z.
Proof. reflexivity. Qed.

(** C6, as the code has it.  Every run of the module body ends in the
    bare [except:] clause of line 80: the cursor and the connection are
    closed and [logger.warning] is called with the text that names the
    slot and the statement that drops it.  Nothing is raised again and
    there is no call to exit, so the module body runs to its end and the
    exit status is 0, also when the session failed. *)
Theorem main_tears_down_and_exits_zero (E : Externals) (cfg : Config)
        (msgs : list Message) (final : exn) (h : history) :
  let slot := py_str (replication_slot_name cfg) in
  exists t,
    main E cfg msgs final h =
    (t ++ [ EvCursorClose; EvConnClose;
            EvLog WARNING
              (MsgDict [("msg",
                 "Transaction logs will accumulate in pg_xlog until the slot is dropped.")])
              [("The slot '" ++ slot ++
                "' still exists. Drop it with SELECT pg_drop_replication_slot('"
                ++ slot ++ "'); if no longer needed.")%string] [] ],
     inl tt) /\
    exit_code (snd (main E cfg msgs final h)) = 0%Z.
Proof.
  intros slot. subst slot.
  set (h1 := h ++ [EvLog INFO (MsgStr "Starting streaming") [] []]).
  set (body := open_session E cfg ;;
               consume_stream (ReplicationConsumer_call E cfg) msgs final).
  assert (Hbody : exists e, snd (body h1) = inr e).
  { subst body. unfold bind.
    destruct (open_session E cfg h1) as [t1 [[]|e]]; [|now exists e].
    destruct (consume_stream_raises (ReplicationConsumer_call E cfg)
                msgs final (h1 ++ t1)) as [e He].
    destruct (consume_stream _ msgs final (h1 ++ t1)) as [t2 r].
    exists e. exact He. }
  destruct Hbody as [e He].
  destruct (body h1) as [tb rb] eqn:Hb. cbn [snd] in He. subst rb.
  exists (EvLog INFO (MsgStr "Starting streaming") [] [] :: tb).
  assert (Hmain : main E cfg msgs final h =
                  ((EvLog INFO (MsgStr "Starting streaming") [] [] :: tb) ++
                   fst (teardown cfg e (h1 ++ tb)),
                   snd (teardown cfg e (h1 ++ tb)))).
  { unfold main, bind at 1, emit at 1. fold body. fold h1.
    unfold try_except. rewrite Hb. cbn [dispatch clause_matches fst snd].
    destruct (teardown cfg e (h1 ++ tb)). reflexivity. }
  rewrite Hmain. split; reflexivity.
Qed.

(** C6 fails as stated: the session is lost after one batch, and the
    module body still runs to its end, so the exit status is 0. *)
Lemma session_failure_exits_zero :
  let run := main Sample.healthy Sample.config [Sample.two_changes]
               Sample.connection_lost [] in
  snd (consume_stream (ReplicationConsumer_call Sample.healthy Sample.config)
         [Sample.two_changes] Sample.connection_lost
         [EvLog INFO (MsgStr "Starting streaming") [] [];
          EvStart (Some "wal2json")])
    = inr Sample.connection_lost /\
  snd run = inl tt /\
  exit_code (snd run) = 0%Z.
Proof. repeat split. Qed.

(** ** Opening the session *)

Lemma open_session_started (E : Externals) (cfg : Config) (h : history) :
  start_replication E h first_slot_name = None ->
  open_session E cfg h = ([EvStart first_slot_name], inl tt).
Proof.
  intros Hs. unfold open_session, try_except, call. now rewrite Hs.
Qed.

Lemma open_session_other_error (E : Externals) (cfg : Config) (h : history) e :
  start_replication E h first_slot_name = Some e ->
  isinstance e ProgrammingError = false ->
  open_session E cfg h = ([EvStart first_slot_name], inr e).
Proof.
  intros Hs Hc. unfold open_session, try_except, call. rewrite Hs.
  cbn [dispatch clause_matches fst snd]. now rewrite Hc.
Qed.

(** C7, as the code has it.  When the first start raises a
    [ProgrammingError], the slot is created under the configured name
    with the wal2json plugin.  If the create returns, streaming is
    started from the configured slot name and the outcome of that start
    is the outcome of the opening.  If the create raises, whatever the
    error, the opening ends with that error and no second start is
    made. *)
Theorem open_session_creates_then_starts (E : Externals) (cfg : Config)
        (h : history) (e0 : exn) :
  start_replication E h first_slot_name = Some e0 ->
  isinstance e0 ProgrammingError = true ->
  let slot := replication_slot_name cfg in
  let h1 := h ++ [EvStart first_slot_name] in
  let h2 := h1 ++ [EvCreateSlot slot "wal2json"] in
  open_session E cfg h =
  match create_replication_slot E h1 slot "wal2json" with
  | Some e =>
      ([EvStart first_slot_name; EvCreateSlot slot "wal2json"], inr e)
  | None =>
      ([EvStart first_slot_name; EvCreateSlot slot "wal2json"; EvStart slot],
       match start_replication E h2 slot with
       | None => inl tt
       | Some e => inr e
       end)
  end.
Proof.
  intros Hs Hc slot h1 h2. subst slot h1 h2.
  unfold open_session, try_except, call at 1. rewrite Hs.
  cbn [dispatch clause_matches fst snd]. rewrite Hc.
  unfold bind, call.
  destruct (create_replication_slot E _ _ _); [reflexivity|].
  now destruct (start_replication E _ (replication_slot_name cfg)).
Qed.

Lemma open_session_creates_then_starts_witness :
  open_session Sample.fresh Sample.other_slot_config [] =
  ([EvStart first_slot_name; EvCreateSlot (Some "relay_slot") "wal2json";
    EvStart (Some "relay_slot")], inl tt).
Proof.
  apply (open_session_creates_then_starts Sample.fresh
           Sample.other_slot_config [] Sample.slot_missing);
    reflexivity.
Defined.

(** C7 fails as stated: the configured slot does not exist at the first
    start and another instance creates it before this one's create, whose
    "already exists" error ends the opening; start is not tried again. *)
Lemma create_race_not_recovered :
  replication_slot_name Sample.config = first_slot_name /\
  isinstance Sample.slot_exists DuplicateObject = true /\
  open_session Sample.raced Sample.config [] =
  ([EvStart (Some "wal2json"); EvCreateSlot (Some "wal2json") "wal2json"],
   inr Sample.slot_exists).
Proof. repeat split. Qed.

(** The slot name of the first start is the literal of line 69, whatever
    name is configured. *)
Example first_start_slot :
  open_session Sample.healthy Sample.other_slot_config [] =
  ([EvStart (Some "wal2json")], inl tt).
Proof. reflexivity. Qed.

(** * Further properties of the program *)

(** ** Payloads of other shapes (line 37) *)

Section EdgePayloads.

Context (E : Externals) (cfg : Config).

(** An object without the key "change": the handler ends with a
    [KeyError] whose text is the quoted key, logged in the warning;
    nothing is published or acknowledged. *)
Theorem missing_change_key (msg : Message) kv (h : history) :
  json_loads E (payload msg) = inl (JDict kv) ->
  assoc_get "change" kv = None ->
  ReplicationConsumer_call E cfg msg h =
  ([EvLog WARNING (MsgStr "Failed to write to kinesis") []
      [("error", "'change'")]],
   inr (mkExn KeyError "'change'")).
Proof.
  intros Hl Hk. unfold ReplicationConsumer_call.
  rewrite (call_with_raised E cfg bare_clause msg h []
             (mkExn KeyError "'change'")); [reflexivity|].
  apply forward_all_malformed. unfold decode. rewrite Hl. simpl.
  now rewrite Hk.
Qed.

(** JSON of another shape -- a top level that is not an object, or a
    "change" that is null, a boolean or a number -- ends the handler with
    a [TypeError], logged in the warning; nothing is published or
    acknowledged. *)
Theorem wrong_shape_type_error (msg : Message) (doc : json) (h : history) :
  json_loads E (payload msg) = inl doc ->
  match doc with
  | JDict kv => exists v, assoc_get "change" kv = Some v /\ scalar v
  | _ => True
  end ->
  exists e,
    exn_class e = TypeError /\
    ReplicationConsumer_call E cfg msg h =
    ([EvLog WARNING (MsgStr "Failed to write to kinesis") []
        [("error", exn_str e)]], inr e).
Proof.
  intros Hl Hshape.
  assert (Hd : exists e, exn_class e = TypeError /\
                         decode E (payload msg) = inr e).
  { unfold decode. rewrite Hl.
    assert (Hpair : forall e : exn, exn_class e = TypeError ->
              exists e', exn_class e' = TypeError /\
                         @inr (list json) exn e = inr e')
      by (intros e0 He0; exists e0; now split).
    destruct doc as [| | | | |l|kv]; simpl; try (now apply Hpair).
    destruct Hshape as [v [-> Hv]].
    destruct v; simpl in *; try contradiction; now apply Hpair. }
  destruct Hd as [e [Hc Hd]]. exists e. split; [exact Hc|].
  unfold ReplicationConsumer_call.
  rewrite (call_with_raised E cfg bare_clause msg h [] e); [reflexivity|].
  now apply forward_all_malformed.
Qed.

(** A "change" that is a str is not refused: each of its characters
    (code points) is published as a record of its own, in order, and the
    batch is acknowledged. *)
Theorem text_change_published_per_character (msg : Message) kv s (h : history) :
  json_loads E (payload msg) = inl (JDict kv) ->
  assoc_get "change" kv = Some (JStr s) ->
  classified E ->
  let run := ReplicationConsumer_call E cfg msg h in
  snd run = inl tt /\
  puts (fst run) = expected_puts E cfg (chars s) /\
  acked (fst run) = [data_start msg].
Proof.
  intros Hl Hk Hcl run. subst run.
  assert (Hd : decode E (payload msg) = inl (chars s)).
  { unfold decode. rewrite Hl. simpl. now rewrite Hk. }
  destruct (classified_forwarded E cfg Hcl (chars s) h) as [t Ht].
  rewrite (call_forwarded E cfg msg (chars s) h t Hd Ht). cbn [fst snd].
  rewrite puts_app, acked_app, (forwarded_puts E cfg h _ t Ht),
    (forwarded_acked E cfg h _ t Ht). simpl. rewrite app_nil_r.
  repeat split.
Qed.

(** A "change" that is an object is not refused either: its keys are
    published, in their order, and the batch is acknowledged. *)
Theorem object_change_publishes_keys (msg : Message) kv d (h : history) :
  json_loads E (payload msg) = inl (JDict kv) ->
  assoc_get "change" kv = Some (JDict d) ->
  classified E ->
  let run := ReplicationConsumer_call E cfg msg h in
  snd run = inl tt /\
  puts (fst run) =
    map (fun q => (kinesis_stream_name cfg, json_dumps E (JStr (fst q)),
                   "default")) d /\
  acked (fst run) = [data_start msg].
Proof.
  intros Hl Hk Hcl run. subst run.
  set (items := map (fun q : string * json => JStr (fst q)) d).
  assert (Hd : decode E (payload msg) = inl items).
  { unfold decode. rewrite Hl. simpl. now rewrite Hk. }
  destruct (classified_forwarded E cfg Hcl items h) as [t Ht].
  rewrite (call_forwarded E cfg msg items h t Hd Ht). cbn [fst snd].
  rewrite puts_app, acked_app, (forwarded_puts E cfg h _ t Ht),
    (forwarded_acked E cfg h _ t Ht). simpl. rewrite app_nil_r.
  repeat split. unfold expected_puts, items. now rewrite map_map.
Qed.

End EdgePayloads.

Lemma healthy_classified : classified Edge.healthy.
Proof. intros h s d k e. simpl. discriminate. Qed.

Lemma missing_change_key_witness :
  ReplicationConsumer_call Edge.healthy Sample.config Edge.no_key [] =
  ([EvLog WARNING (MsgStr "Failed to write to kinesis") []
      [("error", "'change'")]],
   inr (mkExn KeyError "'change'")).
Proof.
  apply (missing_change_key Edge.healthy Sample.config Edge.no_key [] []);
    reflexivity.
Defined.

Lemma wrong_shape_type_error_witness :
  exists e,
    exn_class e = TypeError /\
    ReplicationConsumer_call Edge.healthy Sample.config Edge.number_change [] =
    ([EvLog WARNING (MsgStr "Failed to write to kinesis") []
        [("error", exn_str e)]], inr e).
Proof.
  apply (wrong_shape_type_error Edge.healthy Sample.config Edge.number_change
           (JDict [("change", JInt 7)]) []).
  - reflexivity.
  - exists (JInt 7). split; [reflexivity|exact I].
Defined.

(** A character outside ASCII is one character. *)
Example chars_by_code_point :
  chars ("a" ++ Edge.euro) = [JStr "a"; JStr Edge.euro].
Proof. reflexivity. Qed.

Lemma text_change_published_per_character_witness :
  let run := ReplicationConsumer_call Edge.healthy Sample.config
               Edge.text_change [] in
  snd run = inl tt /\
  puts (fst run) =
    expected_puts Edge.healthy Sample.config (chars ("a" ++ Edge.euro)) /\
  acked (fst run) = [data_start Edge.text_change].
Proof.
  apply (text_change_published_per_character Edge.healthy Sample.config
           Edge.text_change [("change", JStr ("a" ++ Edge.euro)%string)]
           ("a" ++ Edge.euro)%string []).
  - reflexivity.
  - reflexivity.
  - exact healthy_classified.
Defined.

Example text_change_two_records :
  puts (fst (ReplicationConsumer_call Edge.healthy Sample.config
               Edge.text_change [])) =
  [(Some "changes", (Sample.dq ++ "a" ++ Sample.dq)%string, "default");
   (Some "changes", (Sample.dq ++ "\u20ac" ++ Sample.dq)%string, "default")].
Proof. reflexivity. Qed.

Lemma object_change_publishes_keys_witness :
  let run := ReplicationConsumer_call Edge.healthy Sample.config
               Edge.object_change [] in
  snd run = inl tt /\
  puts (fst run) =
    map (fun q => (kinesis_stream_name Sample.config,
                   json_dumps Edge.healthy (JStr (fst q)), "default"))
        [("kind", JInt 1)] /\
  acked (fst run) = [data_start Edge.object_change].
Proof.
  apply (object_change_publishes_keys Edge.healthy Sample.config
           Edge.object_change [("change", JDict [("kind", JInt 1)])]
           [("kind", JInt 1)] []).
  - reflexivity.
  - reflexivity.
  - exact healthy_classified.
Defined.

(** ** Failures the loop has no clause for (lines 45 and 49-54) *)

Section FatalPublish.

Context (E : Externals) (cfg : Config).

Lemma for_each_unhandled h pre t :
  forwarded E cfg h pre t ->
  forall n c post e,
    put_record E (h ++ t) (kinesis_stream_name cfg) (json_dumps E c) "default"
      = Some e ->
    isinstance e ClientError = false ->
    for_each (enumerate_from n (pre ++ c :: post)) (forward_one E cfg) h =
    (t ++ [EvPut (kinesis_stream_name cfg) (json_dumps E c) "default"], inr e).
Proof.
  induction 1 as [h | h c0 cs t Hp _ IH | h c0 cs t e0 Hp Hc0 _ IH];
    intros n c post e Hput Hc.
  - rewrite app_nil_r in Hput. cbn [app enumerate_from for_each].
    apply bind_raises. now apply (forward_one_unhandled E cfg (n, c) h e).
  - rewrite app_assoc in Hput. cbn [app enumerate_from for_each].
    rewrite (bind_returns _ _ _ _ _ (forward_one_sent E cfg (n, c0) h Hp)).
    cbn beta. cbn [snd] in IH |- *.
    now rewrite (IH (S n) c post e Hput Hc), <- app_assoc.
  - rewrite app_assoc in Hput. cbn [app enumerate_from for_each].
    rewrite (bind_returns _ _ _ _ _
               (forward_one_dropped E cfg (n, c0) h e0 Hp Hc0)).
    cbn beta. cbn [snd] in IH |- *.
    now rewrite (IH (S n) c post e Hput Hc), <- app_assoc.
Qed.

(** When [put_record] raises an exception that is not a [ClientError]
    for a record, the records before it having been handled, the handler
    stops there: it logs "Failed to write to kinesis" with the error and
    raises it again.  The records after it are not published, the batch
    is not acknowledged, and what was published before stays published. *)
Theorem unhandled_publish_error_aborts_batch
        (msg : Message) (pre post : list json) (c : json)
        (h : history) (t : list event) (e : exn) :
  decode E (payload msg) = inl (pre ++ c :: post) ->
  forwarded E cfg h pre t ->
  put_record E (h ++ t) (kinesis_stream_name cfg) (json_dumps E c) "default"
    = Some e ->
  isinstance e ClientError = false ->
  let run := ReplicationConsumer_call E cfg msg h in
  run = (t ++ [EvPut (kinesis_stream_name cfg) (json_dumps E c) "default";
               EvLog WARNING (MsgStr "Failed to write to kinesis") []
                 [("error", exn_str e)]], inr e) /\
  puts (fst run) = expected_puts E cfg (pre ++ [c]) /\
  acked (fst run) = [].
Proof.
  intros Hd Hf Hput Hc run. subst run.
  assert (Hrun : ReplicationConsumer_call E cfg msg h =
    (t ++ [EvPut (kinesis_stream_name cfg) (json_dumps E c) "default";
           EvLog WARNING (MsgStr "Failed to write to kinesis") []
             [("error", exn_str e)]], inr e)).
  { unfold ReplicationConsumer_call.
    rewrite (call_with_raised E cfg bare_clause msg h
               (t ++ [EvPut (kinesis_stream_name cfg) (json_dumps E c)
                        "default"]) e).
    - now rewrite <- app_assoc.
    - rewrite (forward_all_decoded E cfg _ _ h Hd).
      now apply for_each_unhandled. }
  rewrite Hrun. cbn [fst]. repeat split.
  - rewrite puts_app, (forwarded_puts E cfg h pre t Hf).
    unfold expected_puts. now rewrite map_app.
  - rewrite acked_app, (forwarded_acked E cfg h pre t Hf). reflexivity.
Qed.

End FatalPublish.

Lemma unhandled_publish_error_aborts_batch_witness :
  let E := Sample.offline in
  let cfg := Sample.config in
  let run := ReplicationConsumer_call E cfg Sample.two_changes [] in
  run = ([] ++ [EvPut (kinesis_stream_name cfg) (json_dumps E (JInt 1)) "default";
                EvLog WARNING (MsgStr "Failed to write to kinesis") []
                  [("error", exn_str Sample.unreachable_endpoint)]],
         inr Sample.unreachable_endpoint) /\
  puts (fst run) = expected_puts E cfg ([] ++ [JInt 1]) /\
  acked (fst run) = [].
Proof.
  apply (unhandled_publish_error_aborts_batch Sample.offline Sample.config
           Sample.two_changes [] [JInt 2] (JInt 1) [] []
           Sample.unreachable_endpoint).
  - reflexivity.
  - constructor.
  - reflexivity.
  - reflexivity.
Defined.

Section PublishFailures.

Context (E : Externals) (cfg : Config).

(** The publishes of a batch all end in success or in a [ClientError],
    or there is a first one that raises another exception. *)
Lemma forwarded_or_unhandled items :
  forall h,
    (exists t, forwarded E cfg h items t) \/
    (exists pre c post t e,
        items = pre ++ c :: post /\
        forwarded E cfg h pre t /\
        put_record E (h ++ t) (kinesis_stream_name cfg) (json_dumps E c)
          "default" = Some e /\
        isinstance e ClientError = false).
Proof.
  induction items as [|c cs IH]; intros h.
  - left. exists []. constructor.
  - destruct (put_record E h (kinesis_stream_name cfg) (json_dumps E c)
                "default") as [e|] eqn:Hp.
    + destruct (isinstance e ClientError) eqn:Hc.
      * destruct (IH (h ++ dropped_events E cfg c e))
          as [[t Ht]|[pre [c' [post [t [e' [-> [Hf [Hp' Hc']]]]]]]]].
        -- left. exists (dropped_events E cfg c e ++ t).
           now apply fwd_dropped.
        -- right. exists (c :: pre), c', post,
             (dropped_events E cfg c e ++ t), e'.
           repeat split; [now apply fwd_dropped| |exact Hc'].
           now rewrite app_assoc.
      * right. exists [], c, cs, [], e.
        repeat split; [constructor| |exact Hc]. now rewrite app_nil_r.
    + destruct (IH (h ++ sent_events E cfg c))
        as [[t Ht]|[pre [c' [post [t [e' [-> [Hf [Hp' Hc']]]]]]]]].
      * left. exists (sent_events E cfg c ++ t). now apply fwd_sent.
      * right. exists (c :: pre), c', post, (sent_events E cfg c ++ t), e'.
        repeat split; [now apply fwd_sent| |exact Hc'].
        now rewrite app_assoc.
Qed.

End PublishFailures.

(** C2, as the code has it.  On a batch that decodes, a publish that
    fails with a [ClientError] is not raised again: the record's warning
    is logged and the loop goes on with the next record.  The handler
    then either handles every record so and ends with the feedback for
    the batch, or meets a record whose [put_record] raises an exception
    that is not a [ClientError]: that one ends the loop, is logged as
    "Failed to write to kinesis" and is raised again, the batch not
    being acknowledged.  The second case does not occur when what
    [put_record] raises is a [ClientError]. *)
Theorem client_error_not_reraised (E : Externals) (cfg : Config)
        (msg : Message) (items : list json) (h : history) :
  decode E (payload msg) = inl items ->
  let run := ReplicationConsumer_call E cfg msg h in
  ((exists t,
       forwarded E cfg h items t /\
       run = (t ++ [EvFeedback (data_start msg)], inl tt)) \/
   (exists pre c post t e,
       items = pre ++ c :: post /\
       forwarded E cfg h pre t /\
       put_record E (h ++ t) (kinesis_stream_name cfg) (json_dumps E c)
         "default" = Some e /\
       isinstance e ClientError = false /\
       run = (t ++ [EvPut (kinesis_stream_name cfg) (json_dumps E c) "default";
                    EvLog WARNING (MsgStr "Failed to write to kinesis") []
                      [("error", exn_str e)]], inr e))) /\
  (classified E ->
   exists t,
     forwarded E cfg h items t /\
     run = (t ++ [EvFeedback (data_start msg)], inl tt)).
Proof.
  intros Hd run. subst run. split.
  - destruct (forwarded_or_unhandled E cfg items h)
      as [[t Ht]|[pre [c [post [t [e [-> [Hf [Hp Hc]]]]]]]]].
    + left. exists t. split; [exact Ht|].
      now apply call_forwarded with (items := items).
    + right. exists pre, c, post, t, e. repeat split; try assumption.
      unfold ReplicationConsumer_call.
      rewrite (call_with_raised E cfg bare_clause msg h
                 (t ++ [EvPut (kinesis_stream_name cfg) (json_dumps E c)
                          "default"]) e).
      * now rewrite <- app_assoc.
      * rewrite (forward_all_decoded E cfg _ _ h Hd).
        now apply for_each_unhandled.
  - intros Hcl.
    destruct (classified_forwarded E cfg Hcl items h) as [t Ht].
    exists t. split; [exact Ht|].
    now apply call_forwarded with (items := items).
Qed.

Lemma client_error_not_reraised_witness :
  let E := Sample.throttled_once in
  let cfg := Sample.config in
  let msg := Sample.two_changes in
  let items := [JInt 1; JInt 2] in
  let run := ReplicationConsumer_call E cfg msg [] in
  ((exists t,
       forwarded E cfg [] items t /\
       run = (t ++ [EvFeedback (data_start msg)], inl tt)) \/
   (exists pre c post t e,
       items = pre ++ c :: post /\
       forwarded E cfg [] pre t /\
       put_record E ([] ++ t) (kinesis_stream_name cfg) (json_dumps E c)
         "default" = Some e /\
       isinstance e ClientError = false /\
       run = (t ++ [EvPut (kinesis_stream_name cfg) (json_dumps E c) "default";
                    EvLog WARNING (MsgStr "Failed to write to kinesis") []
                      [("error", exn_str e)]], inr e))) /\
  (classified E ->
   exists t,
     forwarded E cfg [] items t /\
     run = (t ++ [EvFeedback (data_start msg)], inl tt)).
Proof.
  apply (client_error_not_reraised Sample.throttled_once Sample.config
           Sample.two_changes [JInt 1; JInt 2] []).
  reflexivity.
Defined.

(** On that input: the first publish is throttled and logged,
    the second is sent, the batch is acknowledged. *)
Example throttled_then_sent :
  ReplicationConsumer_call Sample.throttled_once Sample.config
    Sample.two_changes [] =
  (dropped_events Sample.throttled_once Sample.config (JInt 1)
     Sample.throttled ++
   sent_events Sample.throttled_once Sample.config (JInt 2) ++
   [EvFeedback 100%Z], inl tt).
Proof. reflexivity. Qed.

(** C2 fails as stated: the endpoint of the transport cannot be reached,
    a publish failure that is not a [ClientError]; the handler raises it
    again, the loop does not go on to the second record, and the batch
    is not acknowledged. *)
Lemma connection_failure_reraised :
  let E := Sample.offline in
  let run := ReplicationConsumer_call E Sample.config Sample.two_changes [] in
  put_record E [] (Some "changes") "1" "default"
    = Some Sample.unreachable_endpoint /\
  isinstance Sample.unreachable_endpoint ClientError = false /\
  snd run = inr Sample.unreachable_endpoint /\
  puts (fst run) = [(Some "changes", "1", "default")] /\
  ~ In (EvFeedback (data_start Sample.two_changes)) (fst run).
Proof.
  repeat split. vm_compute. intros [H|[H|[]]]; discriminate H.
Qed.

(** ** What the handler and a run never do *)

#[local] Hint Extern 1 (stream_name_ok _ _) => exact I || reflexivity : emits.
#[local] Hint Extern 1 (not_close _) => exact I : emits.
#[local] Hint Extern 1 (no_traffic _) => exact I : emits.

Section Never.

Context (E : Externals) (cfg : Config).

Lemma handler_emits_only (P : event -> Prop) msg :
  (forall s d k, s = kinesis_stream_name cfg -> k = "default" ->
                 P (EvPut s d k)) ->
  (forall l m a x, P (EvLog l m a x)) ->
  (forall p, P (EvFeedback p)) ->
  emits_only P (ReplicationConsumer_call E cfg msg).
Proof.
  intros Hput Hlog Hfb.
  unfold ReplicationConsumer_call, call_with.
  apply emits_only_bind; [|auto with emits].
  apply emits_only_try.
  - apply emits_only_forward_all; intros; repeat constructor; auto.
  - clauses; unfold bare_clause; auto with emits.
Qed.

Lemma open_session_emits_only (P : event -> Prop) :
  (forall ev, opening_call cfg ev -> P ev) ->
  emits_only P (open_session E cfg).
Proof.
  intros Hp. unfold open_session.
  apply emits_only_try; [|clauses; apply emits_only_bind; [|intros _]];
    apply emits_only_call; apply Hp; unfold opening_call; auto.
Qed.

(** Lines 66-79 as one computation: the part of the module body that the
    last [except:] guards. *)
Lemma guarded_emits_only (P : event -> Prop) msgs final :
  (forall ev, opening_call cfg ev -> P ev) ->
  (forall s d k, s = kinesis_stream_name cfg -> k = "default" ->
                 P (EvPut s d k)) ->
  (forall l m a x, P (EvLog l m a x)) ->
  (forall p, P (EvFeedback p)) ->
  emits_only P (open_session E cfg ;;
                consume_stream (ReplicationConsumer_call E cfg) msgs final).
Proof.
  intros Hopen Hput Hlog Hfb.
  apply emits_only_bind; [now apply open_session_emits_only|].
  intros _. apply emits_only_consume. intros m.
  now apply handler_emits_only.
Qed.

(** The shape of every run of the module body. *)
Lemma main_shape msgs final h :
  let h1 := h ++ [EvLog INFO (MsgStr "Starting streaming") [] []] in
  exists tb e,
    (open_session E cfg ;;
     consume_stream (ReplicationConsumer_call E cfg) msgs final) h1
    = (tb, inr e) /\
    main E cfg msgs final h =
    (EvLog INFO (MsgStr "Starting streaming") [] [] :: tb ++
     [EvCursorClose; EvConnClose;
      EvLog WARNING
        (MsgDict [("msg",
           "Transaction logs will accumulate in pg_xlog until the slot is dropped.")])
        [remediation cfg] []], inl tt).
Proof.
  intros h1.
  set (body := open_session E cfg ;;
               consume_stream (ReplicationConsumer_call E cfg) msgs final).
  assert (Hbody : exists e, snd (body h1) = inr e).
  { subst body. unfold bind.
    destruct (open_session E cfg h1) as [t1 [[]|e]]; [|now exists e].
    destruct (consume_stream_raises (ReplicationConsumer_call E cfg)
                msgs final (h1 ++ t1)) as [e He].
    destruct (consume_stream _ msgs final (h1 ++ t1)) as [t2 r].
    exists e. exact He. }
  destruct Hbody as [e He].
  destruct (body h1) as [tb rb] eqn:Hb. cbn [snd] in He. subst rb.
  exists tb, e. split; [reflexivity|].
  unfold main, bind at 1, emit at 1. fold body. fold h1.
  unfold try_except. rewrite Hb. cbn [dispatch clause_matches fst snd].
  reflexivity.
Qed.

End Never.

Lemma stream_name_puts (cfg : Config) t :
  Forall (stream_name_ok cfg) t ->
  Forall (fun p => fst (fst p) = kinesis_stream_name cfg) (puts t).
Proof.
  induction 1 as [|ev t Hev _ IH]; [constructor|].
  destruct ev; simpl in *; try exact IH. constructor; assumption.
Qed.

(** Every [put_record] call of a run names the configured stream, set or
    not; no other stream is ever written to. *)
Theorem single_stream_name (E : Externals) (cfg : Config)
        (msgs : list Message) (final : exn) (h : history) :
  Forall (fun p => fst (fst p) = kinesis_stream_name cfg)
         (puts (fst (main E cfg msgs final h))).
Proof.
  destruct (main_shape E cfg msgs final h) as [tb [e [Hb ->]]]. cbn [fst].
  pose proof (guarded_emits_only E cfg (stream_name_ok cfg) msgs final) as Hg.
  specialize (Hg ltac:(intros ev [-> | [-> | ->]]; exact I)
                 ltac:(intros; assumption)
                 ltac:(intros; exact I) ltac:(intros; exact I)
                 (h ++ [EvLog INFO (MsgStr "Starting streaming") [] []])).
  rewrite Hb in Hg. cbn [fst] in Hg.
  apply stream_name_puts. constructor; [exact I|].
  apply Forall_app. split; [exact Hg|]. repeat constructor.
Qed.

(** The cursor and the connection are closed once each, at the end: no
    call to the transport or to the database follows, only the
    logger's. *)
Theorem closed_once_and_last (E : Externals) (cfg : Config)
        (msgs : list Message) (final : exn) (h : history) :
  exists t l m a x,
    fst (main E cfg msgs final h) =
      t ++ [EvCursorClose; EvConnClose; EvLog l m a x] /\
    Forall not_close t.
Proof.
  destruct (main_shape E cfg msgs final h) as [tb [e [Hb ->]]]. cbn [fst].
  pose proof (guarded_emits_only E cfg not_close msgs final) as Hg.
  specialize (Hg ltac:(intros ev [-> | [-> | ->]]; exact I)
                 ltac:(intros; exact I)
                 ltac:(intros; exact I) ltac:(intros; exact I)
                 (h ++ [EvLog INFO (MsgStr "Starting streaming") [] []])).
  rewrite Hb in Hg. cbn [fst] in Hg.
  eexists (_ :: tb), _, _, _, _. split; [reflexivity|].
  constructor; [exact I|exact Hg].
Qed.

(** ** Acknowledgement (line 61) *)

(** The handler acknowledges its batch exactly when it returns; when it
    raises it has acknowledged nothing, and it never acknowledges any
    position but its batch's start. *)
Theorem acknowledged_iff_returned (E : Externals) (cfg : Config)
        (msg : Message) (h : history) :
  let run := ReplicationConsumer_call E cfg msg h in
  (snd run = inl tt <-> acked (fst run) = [data_start msg]) /\
  ((exists e, snd run = inr e) <-> acked (fst run) = []).
Proof.
  cbn zeta.
  destruct (call_acked E cfg msg h) as [[Hr [Ha _]]|[e [Hr Ha]]];
    rewrite Hr, Ha; split; split; intros H;
    try reflexivity; try discriminate; eauto.
  destruct H. discriminate.
Qed.

Section Sessions.

Context (E : Externals) (cfg : Config).

Let handler := ReplicationConsumer_call E cfg.

(** A session all of whose payloads decode, on a transport that raises
    nothing but [ClientError]: every batch delivered is acknowledged, in
    the order of delivery, and the stream ends only with the session's
    own exception. *)
Theorem every_batch_acknowledged (msgs : list Message) (final : exn) :
  classified E ->
  all_decode E msgs ->
  forall h,
    let run := consume_stream handler msgs final h in
    snd run = inr final /\ acked (fst run) = map data_start msgs.
Proof.
  intros Hcl Hall. induction Hall as [|m msgs [items Hd] _ IH]; intros h.
  - split; reflexivity.
  - cbn zeta. cbn [consume_stream]. subst handler.
    destruct (classified_forwarded E cfg Hcl items h) as [t Ht].
    rewrite (bind_returns _ _ _ _ _ (call_forwarded E cfg m items h t Hd Ht)).
    cbn [fst snd].
    destruct (IH (h ++ t ++ [EvFeedback (data_start m)])) as [Hr Ha].
    split; [exact Hr|].
    rewrite !acked_app, (forwarded_acked E cfg h items t Ht), Ha.
    reflexivity.
Qed.

(** The first batch whose handler raises ends the stream with that
    exception: the batches delivered after it are not handled, and the
    session's own end is not reached. *)
Theorem stream_stops_at_failed_batch
        (pre post : list Message) (m : Message) (final : exn)
        (h : history) (tp tm : list event) (e : exn) :
  for_each pre handler h = (tp, inl tt) ->
  handler m (h ++ tp) = (tm, inr e) ->
  consume_stream handler (pre ++ m :: post) final h = (tp ++ tm, inr e).
Proof.
  revert h tp. induction pre as [|m0 pre IH]; intros h tp Hpre Hm.
  - injection Hpre as <-. rewrite app_nil_r in Hm.
    cbn [app consume_stream]. now apply bind_raises.
  - cbn [for_each] in Hpre. cbn [app consume_stream].
    unfold bind in Hpre |- *.
    destruct (handler m0 h) as [t0 [[]|e0]]; [|discriminate].
    destruct (for_each pre handler (h ++ t0)) as [t1 r1] eqn:Hrest.
    injection Hpre as <- ->.
    rewrite app_assoc in Hm.
    rewrite (IH (h ++ t0) t1 Hrest Hm). now rewrite app_assoc.
Qed.

End Sessions.

Lemma every_batch_acknowledged_witness :
  let run := consume_stream
               (ReplicationConsumer_call Sample.throttled_once Sample.config)
               [Sample.two_changes; Sample.no_change; Sample.one_change]
               Sample.connection_lost [] in
  snd run = inr Sample.connection_lost /\
  acked (fst run) =
  map data_start [Sample.two_changes; Sample.no_change; Sample.one_change].
Proof.
  apply (every_batch_acknowledged Sample.throttled_once Sample.config
           [Sample.two_changes; Sample.no_change; Sample.one_change]
           Sample.connection_lost).
  - exact throttled_once_classified.
  - repeat constructor; eexists; reflexivity.
Defined.

Lemma stream_stops_at_failed_batch_witness :
  consume_stream (ReplicationConsumer_call Sample.healthy Sample.config)
    ([Sample.no_change] ++ Sample.garbled :: [Sample.two_changes])
    Sample.connection_lost [] =
  ([EvFeedback 300%Z] ++
   [EvLog WARNING (MsgStr "Failed to write to kinesis") []
      [("error", exn_str Sample.not_json)]],
   inr Sample.not_json).
Proof.
  apply (stream_stops_at_failed_batch Sample.healthy Sample.config
           [Sample.no_change] [Sample.two_changes] Sample.garbled
           Sample.connection_lost []);
    reflexivity.
Defined.

(** ** Opening the session and what follows a failed opening *)

Section Opening.

Context (E : Externals) (cfg : Config).

(** The three ways the opening can go, by the outcome of the first
    start. *)
Lemma open_session_cases h :
  (start_replication E h first_slot_name = None /\
   open_session E cfg h = ([EvStart first_slot_name], inl tt)) \/
  (exists e, start_replication E h first_slot_name = Some e /\
             isinstance e ProgrammingError = false /\
             open_session E cfg h = ([EvStart first_slot_name], inr e)) \/
  (exists e rest r,
     start_replication E h first_slot_name = Some e /\
     isinstance e ProgrammingError = true /\
     open_session E cfg h =
       (EvStart first_slot_name ::
        EvCreateSlot (replication_slot_name cfg) "wal2json" :: rest, r) /\
     (rest = [] \/ rest = [EvStart (replication_slot_name cfg)])).
Proof.
  destruct (start_replication E h first_slot_name) as [e|] eqn:Hs.
  - destruct (isinstance e ProgrammingError) eqn:Hc.
    + right. right. unfold open_session, try_except, call at 1. rewrite Hs.
      cbn [dispatch clause_matches fst snd]. rewrite Hc.
      unfold bind, call.
      destruct (create_replication_slot E _ _ _).
      * exists e, [], (inr e0). repeat split; auto.
      * destruct (start_replication E _ (replication_slot_name cfg));
          eexists e, _, _; repeat split; auto.
    + right. left. exists e.
      split; [reflexivity|]. split; [exact Hc|].
      now apply open_session_other_error.
  - left. split; [reflexivity|]. now apply open_session_started.
Qed.

(** A replication slot is created exactly when the first start raised a
    [ProgrammingError]; it is then the configured slot, with the wal2json
    plugin.  When the first start succeeds, or fails in another way (a
    lost connection, say), no slot is created. *)
Theorem slot_created_iff_programming_error (h : history) s p :
  In (EvCreateSlot s p) (fst (open_session E cfg h)) <->
  (s = replication_slot_name cfg /\ p = "wal2json" /\
   exists e, start_replication E h first_slot_name = Some e /\
             isinstance e ProgrammingError = true).
Proof.
  destruct (open_session_cases h)
    as [[Hs ->]|[[e [Hs [Hc ->]]]|[e [rest [r [Hs [Hc [-> Hrest]]]]]]]];
    cbn [fst]; split.
  - intros [H|[]]. discriminate H.
  - intros [_ [_ [e [He _]]]]. rewrite Hs in He. discriminate He.
  - intros [H|[]]. discriminate H.
  - intros [_ [_ [e' [He Hc']]]]. rewrite Hs in He. injection He as <-.
    rewrite Hc in Hc'. discriminate Hc'.
  - intros [H|[H|H]]; [discriminate H| |].
    + injection H as <- <-. eauto.
    + destruct Hrest as [-> | ->]; [destruct H|].
      destruct H as [H|[]]. discriminate H.
  - intros [-> [-> _]]. right. now left.
Qed.

(** Streaming is first started from the slot named by the literal of
    line 69, whatever slot name is configured; the configured name is
    started from only after a slot of that name was created. *)
Theorem start_uses_literal_slot_first (h : history) :
  (exists rest, fst (open_session E cfg h) = EvStart (Some "wal2json") :: rest) /\
  (forall s, In (EvStart s) (fst (open_session E cfg h)) ->
             s = Some "wal2json" \/
             (s = replication_slot_name cfg /\
              In (EvCreateSlot s "wal2json") (fst (open_session E cfg h)))) /\
  (start_replication E h (Some "wal2json") = None ->
   forall cfg', open_session E cfg' h = open_session E cfg h).
Proof.
  split; [|split].
  - destruct (open_session_cases h)
      as [[_ ->]|[[e [_ [_ ->]]]|[e [rest [r [_ [_ [-> _]]]]]]]];
      cbn [fst]; eexists; reflexivity.
  - intros s.
    destruct (open_session_cases h)
      as [[_ ->]|[[e [_ [_ ->]]]|[e [rest [r [_ [_ [-> Hrest]]]]]]]];
      cbn [fst].
    + intros [H|[]]. injection H as <-. now left.
    + intros [H|[]]. injection H as <-. now left.
    + intros [H|[H|H]].
      * injection H as <-. now left.
      * discriminate H.
      * destruct Hrest as [-> | ->]; [destruct H|].
        destruct H as [H|[]]. injection H as <-.
        right. split; [reflexivity|]. right. now left.
  - intros Hs cfg'.
    now rewrite !open_session_started by exact Hs.
Qed.

(** When the opening fails, no batch is consumed: the run is the log
    entry, the calls of the opening and the teardown, with no publish and
    no acknowledgement, whatever the session would have delivered. *)
Theorem failed_opening_consumes_nothing
        (msgs : list Message) (final : exn) (h : history) (e : exn) :
  let h1 := h ++ [EvLog INFO (MsgStr "Starting streaming") [] []] in
  snd (open_session E cfg h1) = inr e ->
  let run := main E cfg msgs final h in
  fst run =
    EvLog INFO (MsgStr "Starting streaming") [] [] ::
    fst (open_session E cfg h1) ++
    [EvCursorClose; EvConnClose;
     EvLog WARNING
       (MsgDict [("msg",
          "Transaction logs will accumulate in pg_xlog until the slot is dropped.")])
       [remediation cfg] []] /\
  Forall no_traffic (fst run) /\
  puts (fst run) = [] /\ acked (fst run) = [].
Proof.
  intros h1 Hopen run. subst run.
  destruct (main_shape E cfg msgs final h) as [tb [e' [Hb ->]]].
  fold h1 in Hb. unfold bind in Hb.
  pose proof (open_session_emits_only E cfg no_traffic
                ltac:(intros ev [-> | [-> | ->]]; exact I) h1) as Hn.
  destruct (open_session E cfg h1) as [t1 r1]. cbn [fst snd] in *. subst r1.
  injection Hb as <- <-.
  assert (Hall : Forall no_traffic
            (EvLog INFO (MsgStr "Starting streaming") [] [] :: t1 ++
             [EvCursorClose; EvConnClose;
              EvLog WARNING
                (MsgDict [("msg",
                   "Transaction logs will accumulate in pg_xlog until the slot is dropped.")])
                [remediation cfg] []])).
  { constructor; [exact I|]. apply Forall_app. split; [exact Hn|].
    repeat constructor. }
  split; [reflexivity|]. split; [exact Hall|].
  clear -Hall. induction Hall as [|ev t Hev _ [IHp IHa]]; [now split|].
  destruct ev; simpl in *; try contradiction; now split.
Qed.

End Opening.

Lemma failed_opening_consumes_nothing_witness :
  let h1 := [] ++ [EvLog INFO (MsgStr "Starting streaming") [] []] in
  let run := main Edge.unreachable Sample.config
               [Sample.two_changes; Sample.one_change]
               Sample.connection_lost [] in
  fst run =
    EvLog INFO (MsgStr "Starting streaming") [] [] ::
    fst (open_session Edge.unreachable Sample.config h1) ++
    [EvCursorClose; EvConnClose;
     EvLog WARNING
       (MsgDict [("msg",
          "Transaction logs will accumulate in pg_xlog until the slot is dropped.")])
       [remediation Sample.config] []] /\
  Forall no_traffic (fst run) /\
  puts (fst run) = [] /\ acked (fst run) = [].
Proof.
  apply (failed_opening_consumes_nothing Edge.unreachable Sample.config
           [Sample.two_changes; Sample.one_change] Sample.connection_lost []
           Sample.connection_lost).
  reflexivity.
Defined.

(** ** The checkpoint across a failed batch *)

(** A batch whose handler raises leaves the checkpoint where it was, so
    the source still holds the batch for redelivery. *)
Theorem failed_batch_keeps_checkpoint (E : Externals) (cfg : Config)
        (msg : Message) (h : history) (e : exn) :
  let run := ReplicationConsumer_call E cfg msg h in
  snd run = inr e ->
  checkpoint (h ++ fst run) = checkpoint h.
Proof.
  cbn zeta. intros Hr.
  destruct (call_acked E cfg msg h) as [[Hr' _]|[e' [_ Ha]]].
  - rewrite Hr in Hr'. discriminate Hr'.
  - unfold checkpoint. now rewrite acked_app, Ha, app_nil_r.
Qed.

Lemma failed_batch_keeps_checkpoint_witness :
  checkpoint ([EvFeedback 300%Z] ++
              fst (ReplicationConsumer_call Sample.healthy Sample.config
                     Sample.garbled [EvFeedback 300%Z]))
  = checkpoint [EvFeedback 300%Z].
Proof.
  apply (failed_batch_keeps_checkpoint Sample.healthy Sample.config
           Sample.garbled [EvFeedback 300%Z] Sample.not_json).
  reflexivity.
Defined.
